(** * pkg/alb/rule.go: the ALB listener-rule reconciler

    A shallow embedding of [pkg/alb/rule.go] and of the library calls it
    makes ([strconv.ParseInt], [fmt.Sprintf "%v"]), followed by the
    properties of the priority codec, of the constructors, of the
    reconciliation state machine and of the two comparison predicates. *)

From Stdlib Require Import ZArith String Ascii List Bool Lia.
Import ListNotations.
Local Open Scope string_scope.
Local Open Scope Z_scope.

(** ** Go values

    A Go pointer [*T] is an [option T] ([nil] is [None]); a slice is a list (a
    [nil] slice and an empty slice are both the empty list: they have the same
    length and the same elements).  A run either returns or panics (nil
    dereference, index out of range). *)

Inductive outcome (A : Type) : Type :=
| Returned (a : A)
| Panicked.
Arguments Returned {A} a.
Arguments Panicked {A}.

(** Go's [error] interface, as far as this file uses it: [err.Error()]. *)
Record error : Type := mkError { Error : string }.

(** ** strconv.ParseInt(s, 10, 64) *)

Module strconv.

Inductive NumError : Type := ErrSyntax | ErrRange.

Definition byteval (c : ascii) : Z := Z.of_N (N_of_ascii c).

(** [lower(c) = c | ('x' - 'X')] *)
Definition lower (c : Z) : Z := Z.lor c 32.

Definition maxUint64 : Z := 2 ^ 64 - 1.

(** The digit a byte stands for, for any base up to 36. *)
Definition digitval (c : ascii) : option Z :=
  let b := byteval c in
  if (48 <=? b) && (b <=? 57) then Some (b - 48)
  else if (97 <=? lower b) && (lower b <=? 122) then Some (lower b - 97 + 10)
  else None.

(** The loop of [ParseUint] for base 10 and 64 bits; [n] is the [uint64]
    accumulator, its additions wrap modulo [2^64]. *)
Fixpoint ParseUint_loop (s : string) (n : Z) : Z * option NumError :=
  match s with
  | EmptyString => (n, None)
  | String c s' =>
      match digitval c with
      | None => (0, Some ErrSyntax)
      | Some d =>
          if 10 <=? d then (0, Some ErrSyntax)
          else if maxUint64 / 10 + 1 <=? n then (maxUint64, Some ErrRange)
          else
            let n10 := (n * 10) mod 2 ^ 64 in
            let n1 := (n10 + d) mod 2 ^ 64 in
            if (n1 <? n10) || (maxUint64 <? n1) then (maxUint64, Some ErrRange)
            else ParseUint_loop s' n1
      end
  end.

Definition ParseUint (s : string) : Z * option NumError :=
  if String.eqb s "" then (0, Some ErrSyntax) else ParseUint_loop s 0.

(** [ParseInt(s, 10, 64)]: the value and the error, as Go returns both. *)
Definition ParseInt (s : string) : Z * option NumError :=
  match s with
  | EmptyString => (0, Some ErrSyntax)
  | String c s' =>
      let '(neg, s1) :=
        if Ascii.eqb c "+"%char then (false, s')
        else if Ascii.eqb c "-"%char then (true, s')
        else (false, s) in
      let '(un, err) := ParseUint s1 in
      match err with
      | Some ErrSyntax => (0, Some ErrSyntax)
      | _ =>
          let cutoff := 2 ^ 63 in
          if negb neg && (cutoff <=? un) then (cutoff - 1, Some ErrRange)
          else if neg && (cutoff <? un) then (- cutoff, Some ErrRange)
          else ((if neg then - un else un), err)
      end
  end.

End strconv.

(** ** fmt.Sprintf("%v", i) for an [int] *)

Module fmt.

Definition digitchar (d : Z) : ascii := ascii_of_N (Z.to_N (48 + d)).

(** The digits of [u], most significant first, written in front of [buf]:
    the formatter fills its buffer from the right.  An unsigned 64-bit
    number has at most 20 digits. *)
Fixpoint fmtInteger_loop (fuel : nat) (u : Z) (buf : string) : string :=
  match fuel with
  | O => buf
  | S fuel' =>
      if 10 <=? u
      then fmtInteger_loop fuel' (u / 10) (String (digitchar (u mod 10)) buf)
      else String (digitchar u) buf
  end.

Definition Sprintf_v (a : Z) : string :=
  if a <? 0 then String "-"%char (fmtInteger_loop 20 (- a) "")
  else fmtInteger_loop 20 a "".

End fmt.

(** [math.MaxInt64]; the controller runs on 64-bit platforms, where Go's
    [int] has this range too. *)
Definition MaxInt64 : Z := 2 ^ 63 - 1.

(** ** priority (rule.go, l. 220-226) *)

Definition priority (s : option string) : outcome Z :=
  match s with
  | None => Panicked
  | Some str =>
      if String.eqb str "default" then Returned 0
      else let '(i, _) := strconv.ParseInt str in Returned i
  end.

(** ** The SDK's types (package elbv2), with the fields this file reads *)

Module elbv2.

Record Action : Type := mkAction {
  TargetGroupArn : option string;
  Type_ : option string
}.

Record RuleCondition : Type := mkRuleCondition {
  Field : option string;
  Values : list (option string)
}.

Record Rule : Type := mkRule {
  Actions : list (option Action);
  Conditions : list (option RuleCondition);
  IsDefault : option bool;
  Priority : option string;
  RuleArn : option string
}.

Record Listener : Type := mkListener { ListenerArn : option string }.

Record TargetGroup : Type := mkTargetGroup { tgTargetGroupArn : option string }.

Record CreateRuleInput : Type := mkCreateRuleInput {
  inActions : list (option Action);
  inConditions : list (option RuleCondition);
  inListenerArn : option string;
  inPriority : option Z
}.

Record CreateRuleOutput : Type := mkCreateRuleOutput { Rules : list (option Rule) }.

Record DeleteRuleInput : Type := mkDeleteRuleInput { inRuleArn : option string }.

End elbv2.

(** The load balancer's rule API, [awsutil.ALBsvc]: what a call answers.
    [CreateRule] answers an output and an error, [DeleteRule]'s output is
    discarded by its caller. *)
Record ELBV2API : Type := mkELBV2API {
  CreateRule : elbv2.CreateRuleInput -> option elbv2.CreateRuleOutput * option error;
  DeleteRule : elbv2.DeleteRuleInput -> option error
}.

(** ** The collaborators of package alb that rule.go uses *)

(** Modelled from the spec: the target-group record of package alb, whose
    declaration is in another file; rule.go reads its
    [CurrentTargetGroup.TargetGroupArn], the lookup reads its service name. *)
Record TargetGroup : Type := mkTargetGroup {
  SvcName : string;
  CurrentTargetGroup : option elbv2.TargetGroup
}.

Definition TargetGroups : Type := list TargetGroup.

Fixpoint LookupBySvc_from (p : Z) (t : TargetGroups) (svc : string) : Z :=
  match t with
  | [] => -1
  | v :: t' =>
      if String.eqb (SvcName v) svc then p else LookupBySvc_from (p + 1) t' svc
  end.

(** Modelled from the spec: [TargetGroups.LookupBySvc], declared in another
    file: "search an externally supplied ordered collection of target-group
    records for one whose associated service name matches",
    [lookupByService(name) -> index | notFound]; the caller tests the index
    for [< 0]. *)
Definition LookupBySvc (t : TargetGroups) (svc : string) : Z :=
  LookupBySvc_from 0 t svc.

Record LoadBalancer : Type := mkLoadBalancer { lbTargetGroups : TargetGroups }.

(** [rOpts] and [rOpts.loadbalancer] are taken to be non-nil: the driver
    builds both before it reconciles a rule. *)
Record ReconcileOptions : Type := mkReconcileOptions { loadbalancer : LoadBalancer }.

Record Listener : Type := mkListener { CurrentListener : option elbv2.Listener }.

Definition EventTypeNormal : string := "Normal".
Definition EventTypeWarning : string := "Warning".

(** ** Rule (rule.go, l. 16-22); the logger is left out, logging never
    influences control flow. *)
Record Rule : Type := mkRule {
  CurrentRule : option elbv2.Rule;
  DesiredRule : option elbv2.Rule;
  svcName : string;
  deleted : bool
}.

(** NewRule (l. 25-63). *)
Definition NewRule (priority : Z) (hostname path svcname : string) : Rule :=
  let actions :=
    [ Some {| elbv2.TargetGroupArn := None; elbv2.Type_ := Some "forward" |} ] in
  let '(isDefault, prio) :=
    if priority =? 0 then (true, "default")
    else (false, fmt.Sprintf_v priority) in
  let conditions0 : list (option elbv2.RuleCondition) := [] in
  let conditions1 :=
    if negb (String.eqb hostname "")
    then (conditions0 ++ [ Some {| elbv2.Field := Some "host-header";
                                   elbv2.Values := [ Some hostname ] |} ])%list
    else conditions0 in
  let conditions2 :=
    if negb (String.eqb path "")
    then (conditions1 ++ [ Some {| elbv2.Field := Some "path-pattern";
                                   elbv2.Values := [ Some path ] |} ])%list
    else conditions1 in
  {| CurrentRule := None;
     DesiredRule := Some {| elbv2.Actions := actions;
                            elbv2.Conditions := conditions2;
                            elbv2.IsDefault := Some isDefault;
                            elbv2.Priority := Some prio;
                            elbv2.RuleArn := None |};
     svcName := svcname;
     deleted := false |}.

(** NewRuleFromAWSRule (l. 66-72). *)
Definition NewRuleFromAWSRule (r : option elbv2.Rule) : Rule :=
  {| CurrentRule := r; DesiredRule := None; svcName := ""; deleted := false |}.

(** ** Effects

    A method runs on its receiver, which it may update in place, and on the
    outside world, of which the sequence of calls made so far is kept: the
    requests sent to the rule API and the events given to [rOpts.Eventf]. *)

Inductive Call : Type :=
| CreateRuleCall (i : elbv2.CreateRuleInput)
| DeleteRuleCall (i : elbv2.DeleteRuleInput)
| EventfCall (eventtype reason message : string).

Record State : Type := mkState { this : Rule; calls : list Call }.

Definition M (A : Type) : Type := State -> outcome A * State.

Definition ret {A : Type} (a : A) : M A := fun s => (Returned a, s).

Definition bind {A B : Type} (m : M A) (k : A -> M B) : M B :=
  fun s =>
    match m s with
    | (Returned a, s') => k a s'
    | (Panicked, s') => (Panicked, s')
    end.

Notation "x <- m ;; k" := (bind m (fun x => k))
  (at level 61, m at next level, right associativity).
Notation "m ;;; k" := (bind m (fun _ => k))
  (at level 61, right associativity).

Definition panic {A : Type} : M A := fun s => (Panicked, s).

Definition lift {A : Type} (o : outcome A) : M A :=
  match o with Returned a => ret a | Panicked => panic end.

(** [*p] and [p.f] on a pointer. *)
Definition deref {A : Type} (p : option A) : M A :=
  match p with Some a => ret a | None => panic end.

(** [s[0]] *)
Definition index0 {A : Type} (s : list A) : M A :=
  match s with a :: _ => ret a | [] => panic end.

(** [s[i]] *)
Definition index {A : Type} (s : list A) (i : Z) : M A :=
  if i <? 0 then panic
  else match nth_error s (Z.to_nat i) with Some a => ret a | None => panic end.

Definition getRule : M Rule := fun s => (Returned (this s), s).

Definition setRule (r : Rule) : M unit :=
  fun s => (Returned tt, {| this := r; calls := calls s |}).

Definition call (c : Call) : M unit :=
  fun s => (Returned tt, {| this := this s; calls := (calls s ++ [c])%list |}).

(** [rOpts.Eventf(eventtype, reason, format, args...)] with the message
    already formatted. *)
Definition Eventf (rOpts : ReconcileOptions) (eventtype reason message : string)
  : M unit :=
  call (EventfCall eventtype reason message).

Definition isCreateRule (c : Call) : bool :=
  match c with CreateRuleCall _ => true | _ => false end.
Definition isDeleteRule (c : Call) : bool :=
  match c with DeleteRuleCall _ => true | _ => false end.
Definition isAPICall (c : Call) : bool := isCreateRule c || isDeleteRule c.

(** The requests sent to the rule API among the calls made. *)
Definition apiCalls (cs : list Call) : list Call := filter isAPICall cs.

Definition modifyRule (f : Rule -> Rule) : M unit :=
  r <- getRule ;; setRule (f r).

Definition withCurrentRule (c : option elbv2.Rule) (r : Rule) : Rule :=
  {| CurrentRule := c; DesiredRule := DesiredRule r;
     svcName := svcName r; deleted := deleted r |}.

Definition withDesiredRule (d : option elbv2.Rule) (r : Rule) : Rule :=
  {| CurrentRule := CurrentRule r; DesiredRule := d;
     svcName := svcName r; deleted := deleted r |}.

Definition withDeleted (b : bool) (r : Rule) : Rule :=
  {| CurrentRule := CurrentRule r; DesiredRule := DesiredRule r;
     svcName := svcName r; deleted := b |}.

Definition withTargetGroupArn (arn : option string) (a : elbv2.Action)
  : elbv2.Action :=
  {| elbv2.TargetGroupArn := arn; elbv2.Type_ := elbv2.Type_ a |}.

Definition withActions (acts : list (option elbv2.Action)) (d : elbv2.Rule)
  : elbv2.Rule :=
  {| elbv2.Actions := acts; elbv2.Conditions := elbv2.Conditions d;
     elbv2.IsDefault := elbv2.IsDefault d; elbv2.Priority := elbv2.Priority d;
     elbv2.RuleArn := elbv2.RuleArn d |}.

Definition isSome {A : Type} (p : option A) : bool :=
  match p with Some _ => true | None => false end.

(** [util.DeepEqual] of package pkg/util/types takes any two values
    ([interface{}]); rule.go calls it on priorities and on condition lists. *)
Class DeepEq (A : Type) : Type := DeepEqual : A -> A -> bool.

(** ** The methods of Rule *)

Section Reconciler.

(** The shared client handle [awsutil.ALBsvc]. *)
Variable ALBsvc : ELBV2API.

(** [log.Prettify] of package pkg/util/log, which renders a value as a
    string; rule.go decides with it on condition lists only (its other uses
    are log messages). *)
Variable Prettify : list (option elbv2.RuleCondition) -> string.

(** [util.DeepEqual] at the two types it is called on. *)
Context {DeepEqualPriority : DeepEq (option string)}.
Context {DeepEqualConditions : DeepEq (list (option elbv2.RuleCondition))}.

(** targetGroupArn (l. 125-136). *)
Definition targetGroupArn (tgs : TargetGroups) : M (option string) :=
  r <- getRule ;;
  resolved <-
    match CurrentRule r with
    | None => ret false
    | Some cr =>
        a <- index0 (elbv2.Actions cr) ;;
        a <- deref a ;;
        ret (isSome (elbv2.TargetGroupArn a))
    end ;;
  if (resolved : bool) then
    cr <- deref (CurrentRule r) ;;
    a <- index0 (elbv2.Actions cr) ;;
    a <- deref a ;;
    ret (elbv2.TargetGroupArn a)
  else
    let tgIndex := LookupBySvc tgs (svcName r) in
    if tgIndex <? 0 then ret None
    else
      tg <- index tgs tgIndex ;;
      ctg <- deref (CurrentTargetGroup tg) ;;
      ret (elbv2.tgTargetGroupArn ctg).

(** create (l. 138-158).  [in.Actions] is the slice of [r.DesiredRule], so
    the assignment to [in.Actions[0].TargetGroupArn] writes the action of
    the desired rule. *)
Definition create (rOpts : ReconcileOptions) (l : Listener) : M (option error) :=
  r <- getRule ;;
  dr <- deref (DesiredRule r) ;;
  cl <- deref (CurrentListener l) ;;
  prio <- lift (priority (elbv2.Priority dr)) ;;
  a0 <- index0 (elbv2.Actions dr) ;;
  arn <- targetGroupArn (lbTargetGroups (loadbalancer rOpts)) ;;
  a0 <- deref a0 ;;
  let actions := Some (withTargetGroupArn arn a0) :: tl (elbv2.Actions dr) in
  modifyRule (withDesiredRule (Some (withActions actions dr))) ;;;
  let input :=
    {| elbv2.inActions := actions;
       elbv2.inConditions := elbv2.Conditions dr;
       elbv2.inListenerArn := elbv2.ListenerArn cl;
       elbv2.inPriority := Some prio |} in
  call (CreateRuleCall input) ;;;
  let '(o, err) := CreateRule ALBsvc input in
  match err with
  | Some e =>
      Eventf rOpts EventTypeWarning "ERROR"
        ("Error creating " ++ fmt.Sprintf_v prio ++ " rule: " ++ Error e) ;;;
      ret (Some e)
  | None =>
      o <- deref o ;;
      r0 <- index0 (elbv2.Rules o) ;;
      modifyRule (withCurrentRule r0) ;;;
      ret None
  end.

(** modify (l. 160-163). *)
Definition modify (rOpts : ReconcileOptions) : M (option error) :=
  ret None.

(** delete (l. 165-188). *)
Definition delete (rOpts : ReconcileOptions) : M (option error) :=
  r <- getRule ;;
  match CurrentRule r with
  | None => ret None
  | Some cr =>
      isDefault <- deref (elbv2.IsDefault cr) ;;
      if (isDefault : bool) then ret None
      else
        let input := {| elbv2.inRuleArn := elbv2.RuleArn cr |} in
        call (DeleteRuleCall input) ;;;
        match DeleteRule ALBsvc input with
        | Some err =>
            prio <- deref (elbv2.Priority cr) ;;
            Eventf rOpts EventTypeWarning "ERROR"
              ("Error deleting " ++ prio ++ " rule: " ++ Error err) ;;;
            ret (Some err)
        | None =>
            modifyRule (withDeleted true) ;;;
            ret None
        end
  end.

(** needsModification (l. 190-205). *)
Definition needsModification : M bool :=
  r <- getRule ;;
  let cr := CurrentRule r in
  let dr := DesiredRule r in
  match cr with
  | None => ret true
  | Some cr =>
      dr <- deref dr ;;
      if negb (String.eqb (Prettify (elbv2.Conditions cr))
                          (Prettify (elbv2.Conditions dr)))
      then ret true
      else ret false
  end.

(** CurrentEquals (l. 208-218). *)
Definition CurrentEquals (target : option elbv2.Rule) : M bool :=
  r <- getRule ;;
  match CurrentRule r with
  | None => ret false
  | Some cr =>
      target <- deref target ;;
      if negb (DeepEqual (elbv2.Priority cr) (elbv2.Priority target))
      then ret false
      else if negb (DeepEqual (elbv2.Conditions cr) (elbv2.Conditions target))
      then ret false
      else ret true
  end.

(** Reconcile (l. 77-123). *)
Definition Reconcile (rOpts : ReconcileOptions) (l : Listener) : M (option error) :=
  r <- getRule ;;
  match DesiredRule r with
  | None =>
      match CurrentRule r with
      | None => ret None
      | Some cr =>
          isDefault <- deref (elbv2.IsDefault cr) ;;
          if (isDefault : bool) then ret None
          else
            err <- delete rOpts ;;
            match err with
            | Some e => ret (Some e)
            | None =>
                r <- getRule ;;
                cr <- deref (CurrentRule r) ;;
                prio <- deref (elbv2.Priority cr) ;;
                Eventf rOpts EventTypeNormal "DELETE" (prio ++ " rule deleted") ;;;
                ret None
            end
      end
  | Some dr =>
      isDefault <- deref (elbv2.IsDefault dr) ;;
      if (isDefault : bool) then
        modifyRule (withCurrentRule (DesiredRule r)) ;;;
        ret None
      else
        match CurrentRule r with
        | None =>
            err <- create rOpts l ;;
            match err with
            | Some e => ret (Some e)
            | None =>
                r <- getRule ;;
                cr <- deref (CurrentRule r) ;;
                prio <- deref (elbv2.Priority cr) ;;
                Eventf rOpts EventTypeNormal "CREATE" (prio ++ " rule created") ;;;
                ret None
            end
        | Some _ =>
            modification <- needsModification ;;
            if (modification : bool) then
              err <- modify rOpts ;;
              match err with
              | Some e => ret (Some e)
              | None =>
                  r <- getRule ;;
                  cr <- deref (CurrentRule r) ;;
                  prio <- deref (elbv2.Priority cr) ;;
                  Eventf rOpts EventTypeNormal "MODIFY" (prio ++ " rule modified") ;;;
                  ret None
              end
            else ret None
        end
  end.

End Reconciler.

(** The priority string of the desired rule. *)
Definition desiredPriority (r : Rule) : option string :=
  match DesiredRule r with
  | Some d => elbv2.Priority d
  | None => None
  end.

(** The state a method starts in when nothing has been called yet. *)
Definition start (r : Rule) : State := {| this := r; calls := [] |}.

(** Modelled from the spec: what [log.Prettify], declared in package
    pkg/util/log, gives for a condition list is "the structural
    representation" of the conditions, compared as an "order-sensitive value
    comparison over field+values": two condition lists with the same
    rendering are the same list. *)
Definition structural (Prettify : list (option elbv2.RuleCondition) -> string)
  : Prop :=
  forall a b, Prettify a = Prettify b -> a = b.

(** ** A rendering of condition lists

    One way to write a condition list as a string from which every field can
    be read back (lengths in unary, then the bytes); it is a rendering that
    [Prettify] can be taken to be where a concrete one is needed. *)

Fixpoint renderLength (n : nat) : string :=
  match n with
  | O => "0"
  | S n' => String "1"%char (renderLength n')
  end.

Definition renderString (s : string) : string :=
  (renderLength (String.length s) ++ s)%string.

Definition renderOption {A : Type} (render : A -> string) (o : option A) : string :=
  match o with
  | None => "N"
  | Some a => String "S"%char (render a)
  end.

Fixpoint renderList {A : Type} (render : A -> string) (l : list A) : string :=
  match l with
  | [] => "]"
  | a :: l' => String ","%char (render a ++ renderList render l')%string
  end.

Definition renderCondition (c : elbv2.RuleCondition) : string :=
  (renderOption renderString (elbv2.Field c)
   ++ renderList (renderOption renderString) (elbv2.Values c))%string.

Definition renderConditions (cs : list (option elbv2.RuleCondition)) : string :=
  renderList (renderOption renderCondition) cs.

(** A provider that accepts every request: [CreateRule] answers the rule it
    was asked for, under a fixed ARN. *)
Definition acceptingALB : ELBV2API :=
  {| CreateRule := fun i =>
       (Some {| elbv2.Rules :=
                  [ Some {| elbv2.Actions := elbv2.inActions i;
                            elbv2.Conditions := elbv2.inConditions i;
                            elbv2.IsDefault := Some false;
                            elbv2.Priority :=
                              match elbv2.inPriority i with
                              | Some p => Some (fmt.Sprintf_v p)
                              | None => None
                              end;
                            elbv2.RuleArn := Some "arn:rule/1" |} ] |},
        None);
     DeleteRule := fun _ => None |}.

(** A provider that refuses every request. *)
Definition refusingALB : ELBV2API :=
  {| CreateRule := fun _ => (None, Some {| Error := "AccessDenied" |});
     DeleteRule := fun _ => Some {| Error := "AccessDenied" |} |}.

(** [render] can be read back from the front of a string. *)
Definition readable {A : Type} (render : A -> string) : Prop :=
  forall (a b : A) (x y : string),
    (render a ++ x = render b ++ y)%string -> a = b /\ x = y.

(** Field-by-field comparisons of priorities and of condition lists, which
    [DeepEqual] can be taken to be where a concrete one is needed. *)

Definition eqbOption {A : Type} (eqb : A -> A -> bool) (a b : option A) : bool :=
  match a, b with
  | Some x, Some y => eqb x y
  | None, None => true
  | _, _ => false
  end.

Fixpoint eqbList {A : Type} (eqb : A -> A -> bool) (l m : list A) : bool :=
  match l, m with
  | [], [] => true
  | a :: l', b :: m' => eqb a b && eqbList eqb l' m'
  | _, _ => false
  end.

Definition eqbCondition (c d : elbv2.RuleCondition) : bool :=
  eqbOption String.eqb (elbv2.Field c) (elbv2.Field d)
  && eqbList (eqbOption String.eqb) (elbv2.Values c) (elbv2.Values d).

Definition eqbPriority : DeepEq (option string) := eqbOption String.eqb.

Definition eqbConditions : DeepEq (list (option elbv2.RuleCondition)) :=
  eqbList (eqbOption eqbCondition).

(** ** Sample values *)

Definition exampleRule : Rule := NewRule 3 "example.com" "/api" "svc-a".

(** A load balancer whose only target group belongs to another service. *)
Definition exampleOptions : ReconcileOptions :=
  {| loadbalancer :=
       {| lbTargetGroups :=
            [ {| SvcName := "svc-b";
                 CurrentTargetGroup :=
                   Some {| elbv2.tgTargetGroupArn := Some "arn:tg/svc-b" |} |} ] |} |}.

Definition exampleListener : Listener :=
  {| CurrentListener := Some {| elbv2.ListenerArn := Some "arn:listener/1" |} |}.

(** The request that [create] sends for [exampleRule]. *)
Definition exampleRequest : elbv2.CreateRuleInput :=
  {| elbv2.inActions :=
       [ Some {| elbv2.TargetGroupArn := None; elbv2.Type_ := Some "forward" |} ];
     elbv2.inConditions :=
       [ Some {| elbv2.Field := Some "host-header";
                 elbv2.Values := [ Some "example.com" ] |};
         Some {| elbv2.Field := Some "path-pattern";
                 elbv2.Values := [ Some "/api" ] |} ];
     elbv2.inListenerArn := Some "arn:listener/1";
     elbv2.inPriority := Some 3 |}.

(** A rule as the provider reports it. *)
Definition observedRule : elbv2.Rule :=
  {| elbv2.Actions :=
       [ Some {| elbv2.TargetGroupArn := Some "arn:tg/svc-a";
                 elbv2.Type_ := Some "forward" |} ];
     elbv2.Conditions :=
       [ Some {| elbv2.Field := Some "host-header";
                 elbv2.Values := [ Some "example.com" ] |};
         Some {| elbv2.Field := Some "path-pattern";
                 elbv2.Values := [ Some "/api" ] |} ];
     elbv2.IsDefault := Some false;
     elbv2.Priority := Some "3";
     elbv2.RuleArn := Some "arn:rule/3" |}.

(** The same rule with its two conditions in the other order, another
    priority and another target group. *)
Definition swappedRule : elbv2.Rule :=
  {| elbv2.Actions :=
       [ Some {| elbv2.TargetGroupArn := Some "arn:tg/svc-c";
                 elbv2.Type_ := Some "forward" |} ];
     elbv2.Conditions :=
       [ Some {| elbv2.Field := Some "path-pattern";
                 elbv2.Values := [ Some "/api" ] |};
         Some {| elbv2.Field := Some "host-header";
                 elbv2.Values := [ Some "example.com" ] |} ];
     elbv2.IsDefault := Some false;
     elbv2.Priority := Some "4";
     elbv2.RuleArn := Some "arn:rule/4" |}.

(** A listener's default rule as the provider reports it. *)
Definition defaultRule : elbv2.Rule :=
  {| elbv2.Actions :=
       [ Some {| elbv2.TargetGroupArn := Some "arn:tg/svc-a";
                 elbv2.Type_ := Some "forward" |} ];
     elbv2.Conditions := [];
     elbv2.IsDefault := Some true;
     elbv2.Priority := Some "default";
     elbv2.RuleArn := Some "arn:rule/default" |}.

(** [math.MinInt64] *)
Definition MinInt64 : Z := - 2 ^ 63.

(** The request that [create] builds for the desired rule [dr], whose first
    action is [a0], once the target group [arn] is written into that action. *)
Definition requestFor (dr : elbv2.Rule) (cl : elbv2.Listener) (prio : Z)
           (arn : option string) (a0 : elbv2.Action)
           (acts : list (option elbv2.Action)) : elbv2.CreateRuleInput :=
  {| elbv2.inActions := Some (withTargetGroupArn arn a0) :: acts;
     elbv2.inConditions := elbv2.Conditions dr;
     elbv2.inListenerArn := elbv2.ListenerArn cl;
     elbv2.inPriority := Some prio |}.

(** A load balancer with a target group for svc-a after one for svc-b. *)
Definition resolvingOptions : ReconcileOptions :=
  {| loadbalancer :=
       {| lbTargetGroups :=
            [ {| SvcName := "svc-b";
                 CurrentTargetGroup :=
                   Some {| elbv2.tgTargetGroupArn := Some "arn:tg/svc-b" |} |};
              {| SvcName := "svc-a";
                 CurrentTargetGroup :=
                   Some {| elbv2.tgTargetGroupArn := Some "arn:tg/svc-a" |} |} ] |} |}.

(** * Properties *)

(** ** The priority codec *)

Lemma pow64_val : 2 ^ 64 = 18446744073709551616.
Proof. reflexivity. Qed.

Lemma maxUint64_val : strconv.maxUint64 = 18446744073709551615.
Proof. reflexivity. Qed.

Lemma digit_cases (d : Z) :
  0 <= d < 10 ->
  d = 0 \/ d = 1 \/ d = 2 \/ d = 3 \/ d = 4 \/ d = 5 \/ d = 6 \/ d = 7 \/ d = 8 \/ d = 9.
Proof. lia. Qed.

Ltac each_digit d H :=
  let C := fresh "C" in
  pose proof (digit_cases d H) as C;
  repeat (destruct C as [C | C]; [subst d | ]); [ .. | subst d ].

Lemma digitval_digitchar (d : Z) :
  0 <= d < 10 -> strconv.digitval (fmt.digitchar d) = Some d.
Proof. intros H. each_digit d H; reflexivity. Qed.

Lemma digitchar_not_sign (d : Z) :
  0 <= d < 10 ->
  Ascii.eqb (fmt.digitchar d) "+"%char = false /\
  Ascii.eqb (fmt.digitchar d) "-"%char = false.
Proof. intros H. each_digit d H; split; reflexivity. Qed.

(** Reading the digits that the formatter wrote leaves their number in the
    accumulator. *)
Lemma ParseUint_loop_fmtInteger_loop (fuel : nat) :
  forall (u : Z) (buf : string),
    0 <= u < 10 ^ Z.of_nat fuel -> u <= strconv.maxUint64 ->
    strconv.ParseUint_loop (fmt.fmtInteger_loop fuel u buf) 0
    = strconv.ParseUint_loop buf u.
Proof.
  induction fuel as [| fuel IH]; intros u buf Hu Hmax.
  - simpl in *. assert (u = 0) by lia. subst u. reflexivity.
  - rewrite Nat2Z.inj_succ, Z.pow_succ_r in Hu by lia.
    rewrite maxUint64_val in Hmax.
    cbn [fmt.fmtInteger_loop].
    destruct (10 <=? u) eqn:E.
    + apply Z.leb_le in E.
      pose proof (Z.div_mod u 10 ltac:(lia)) as Hdm.
      pose proof (Z.mod_pos_bound u 10 ltac:(lia)) as Hm.
      rewrite IH by (rewrite ?maxUint64_val; lia).
      cbn [strconv.ParseUint_loop].
      rewrite digitval_digitchar by lia.
      replace (10 <=? u mod 10) with false by (symmetry; apply Z.leb_gt; lia).
      rewrite maxUint64_val.
      replace (18446744073709551615 / 10 + 1 <=? u / 10) with false
        by (symmetry; apply Z.leb_gt; change (18446744073709551615 / 10 + 1)
              with 1844674407370955162; lia).
      cbv zeta. rewrite pow64_val.
      rewrite (Z.mod_small (u / 10 * 10)) by lia.
      replace (u / 10 * 10 + u mod 10) with u by lia.
      rewrite (Z.mod_small u) by lia.
      replace (u <? u / 10 * 10) with false by (symmetry; apply Z.ltb_ge; lia).
      replace (18446744073709551615 <? u) with false
        by (symmetry; apply Z.ltb_ge; lia).
      reflexivity.
    + apply Z.leb_gt in E.
      cbn [strconv.ParseUint_loop].
      rewrite digitval_digitchar by lia.
      replace (10 <=? u) with false by (symmetry; apply Z.leb_gt; lia).
      rewrite maxUint64_val.
      change (18446744073709551615 / 10 + 1 <=? 0) with false.
      cbv zeta. rewrite pow64_val.
      change (0 * 10) with 0. rewrite (Z.mod_small 0) by lia.
      change (0 + u) with u. rewrite (Z.mod_small u) by lia.
      replace (u <? 0) with false by (symmetry; apply Z.ltb_ge; lia).
      replace (18446744073709551615 <? u) with false
        by (symmetry; apply Z.ltb_ge; lia).
      reflexivity.
Qed.

(** What the formatter writes starts with a digit. *)
Lemma fmtInteger_loop_head (fuel : nat) :
  forall (u : Z) (buf : string),
    0 <= u ->
    exists d s, 0 <= d < 10 /\
      fmt.fmtInteger_loop (S fuel) u buf = String (fmt.digitchar d) s.
Proof.
  induction fuel as [| fuel IH]; intros u buf Hu.
  - cbn [fmt.fmtInteger_loop]. destruct (10 <=? u) eqn:E.
    + exists (u mod 10), buf. split; [apply Z.mod_pos_bound; lia | reflexivity].
    + apply Z.leb_gt in E. exists u, buf. split; [lia | reflexivity].
  - change (fmt.fmtInteger_loop (S (S fuel)) u buf)
      with (if 10 <=? u
            then fmt.fmtInteger_loop (S fuel) (u / 10)
                   (String (fmt.digitchar (u mod 10)) buf)
            else String (fmt.digitchar u) buf).
    destruct (10 <=? u) eqn:E.
    + apply Z.leb_le in E.
      apply IH. apply Z.div_pos; lia.
    + apply Z.leb_gt in E. exists u, buf. split; [lia | reflexivity].
Qed.

(** [ParseInt] reads back any non-negative [int64] that [Sprintf] wrote. *)
Lemma ParseInt_Sprintf_v (p : Z) :
  0 <= p <= MaxInt64 -> strconv.ParseInt (fmt.Sprintf_v p) = (p, None).
Proof.
  intros Hp. unfold MaxInt64 in Hp.
  change (2 ^ 63 - 1) with 9223372036854775807 in Hp.
  unfold fmt.Sprintf_v.
  replace (p <? 0) with false by (symmetry; apply Z.ltb_ge; lia).
  destruct (fmtInteger_loop_head 19 p "" ltac:(lia)) as (d & s & Hd & Hs).
  assert (Hparse : strconv.ParseUint_loop (fmt.fmtInteger_loop 20 p "") 0 = (p, None)).
  { rewrite ParseUint_loop_fmtInteger_loop.
    - reflexivity.
    - change (10 ^ Z.of_nat 20) with 100000000000000000000. lia.
    - rewrite maxUint64_val. lia. }
  rewrite Hs in *.
  destruct (digitchar_not_sign d Hd) as [Hplus Hminus].
  unfold strconv.ParseInt. rewrite Hplus, Hminus.
  unfold strconv.ParseUint. cbn [String.eqb]. rewrite Hparse.
  cbn [negb andb].
  change (2 ^ 63) with 9223372036854775808.
  replace (9223372036854775808 <=? p) with false by (symmetry; apply Z.leb_gt; lia).
  reflexivity.
Qed.

Lemma Sprintf_v_not_default (p : Z) :
  0 <= p -> String.eqb (fmt.Sprintf_v p) "default" = false.
Proof.
  intros Hp. unfold fmt.Sprintf_v.
  replace (p <? 0) with false by (symmetry; apply Z.ltb_ge; lia).
  destruct (fmtInteger_loop_head 19 p "" Hp) as (d & s & Hd & Hs).
  rewrite Hs. cbn [String.eqb].
  replace (Ascii.eqb (fmt.digitchar d) "d"%char) with false; [reflexivity |].
  each_digit d Hd; reflexivity.
Qed.

(** C4. Decoding the priority string that [NewRule] writes for a priority
    [p >= 1] (within the range of a 64-bit [int]) gives [p] back; priority 0
    is written as the sentinel ["default"], and ["default"] decodes to 0. *)
Theorem priority_roundtrip (p : Z) (hostname path svcname : string) :
  1 <= p <= MaxInt64 ->
  priority (desiredPriority (NewRule p hostname path svcname)) = Returned p /\
  desiredPriority (NewRule 0 hostname path svcname) = Some "default" /\
  priority (Some "default") = Returned 0.
Proof.
  intros Hp. split; [| split; reflexivity].
  unfold NewRule, desiredPriority.
  replace (p =? 0) with false by (symmetry; apply Z.eqb_neq; lia).
  cbn. rewrite Sprintf_v_not_default by lia.
  rewrite ParseInt_Sprintf_v by lia. reflexivity.
Qed.

Lemma priority_roundtrip_witness :
  1 <= 50000 <= MaxInt64 /\
  priority (desiredPriority (NewRule 50000 "example.com" "/api" "svc-a"))
  = Returned 50000.
Proof.
  split; [unfold MaxInt64; lia |].
  apply (priority_roundtrip 50000 "example.com" "/api" "svc-a").
  unfold MaxInt64. lia.
Defined.

(** C2. What the code does with a priority string that is neither
    ["default"] nor a number: the parse error of [ParseInt] is dropped and
    [priority] returns 0, the value it returns for ["default"]; a number out
    of range is returned clamped. No error reaches the caller. *)
Theorem priority_drops_parse_error :
  strconv.ParseInt "abc" = (0, Some strconv.ErrSyntax) /\
  priority (Some "abc") = Returned 0 /\
  priority (Some "abc") = priority (Some "default") /\
  strconv.ParseInt "99999999999999999999" = (MaxInt64, Some strconv.ErrRange) /\
  priority (Some "99999999999999999999") = Returned MaxInt64.
Proof. repeat split. Qed.

(** ** NewRule *)

(** C9. [NewRule 3 "example.com" "/api" "svc-a"] has the host-header condition
    before the path-pattern condition, priority ["3"] and [IsDefault = false];
    priority 0 gives [IsDefault = true] and priority ["default"]; whatever the
    priority, the conditions are one for the hostname when it is not empty,
    then one for the path when it is not empty, and nothing else. *)
Theorem NewRule_desired :
  DesiredRule (NewRule 3 "example.com" "/api" "svc-a")
  = Some {| elbv2.Actions :=
              [ Some {| elbv2.TargetGroupArn := None;
                        elbv2.Type_ := Some "forward" |} ];
            elbv2.Conditions :=
              [ Some {| elbv2.Field := Some "host-header";
                        elbv2.Values := [ Some "example.com" ] |};
                Some {| elbv2.Field := Some "path-pattern";
                        elbv2.Values := [ Some "/api" ] |} ];
            elbv2.IsDefault := Some false;
            elbv2.Priority := Some "3";
            elbv2.RuleArn := None |} /\
  (forall hostname path svcname,
      exists d, DesiredRule (NewRule 0 hostname path svcname) = Some d /\
                elbv2.IsDefault d = Some true /\
                elbv2.Priority d = Some "default") /\
  (forall prio hostname path svcname,
      exists d, DesiredRule (NewRule prio hostname path svcname) = Some d /\
                elbv2.Conditions d =
                ((if String.eqb hostname "" then []
                  else [ Some {| elbv2.Field := Some "host-header";
                                 elbv2.Values := [ Some hostname ] |} ])
                 ++
                 (if String.eqb path "" then []
                  else [ Some {| elbv2.Field := Some "path-pattern";
                                 elbv2.Values := [ Some path ] |} ]))%list) /\
  (forall prio hostname path svcname,
      CurrentRule (NewRule prio hostname path svcname) = None /\
      deleted (NewRule prio hostname path svcname) = false /\
      svcName (NewRule prio hostname path svcname) = svcname).
Proof.
  split; [reflexivity |]. split; [| split].
  - intros. eexists. split; [reflexivity |]. split; reflexivity.
  - intros. unfold NewRule.
    destruct (prio =? 0); eexists; (split; [reflexivity |]); cbn;
      destruct (String.eqb hostname ""); destruct (String.eqb path "");
      reflexivity.
  - intros. unfold NewRule. destruct (prio =? 0); repeat split.
Qed.

(** ** The state machine *)

Lemma apiCalls_app (cs1 cs2 : list Call) :
  apiCalls (cs1 ++ cs2) = (apiCalls cs1 ++ apiCalls cs2)%list.
Proof. apply filter_app. Qed.

Ltac run :=
  cbv beta delta [bind ret panic lift deref index0 getRule setRule modifyRule
                  call Eventf] iota zeta;
  cbn [this calls fst snd].

Section Reconciliation.

Variable ALBsvc : ELBV2API.
Variable Prettify : list (option elbv2.RuleCondition) -> string.

(** C10. [delete] on a rule without a current snapshot returns [nil]; it
    sends nothing to the rule API, emits no event and leaves the rule, its
    deleted marker included, as it was. *)
Theorem delete_absent (rOpts : ReconcileOptions) (s : State) :
  CurrentRule (this s) = None ->
  delete ALBsvc rOpts s = (Returned None, s).
Proof.
  intros Hc. unfold delete. run. rewrite Hc. reflexivity.
Qed.

(** What [delete] does on a current rule that is not the default one. *)
Lemma delete_present (rOpts : ReconcileOptions) (s : State)
      (cr : elbv2.Rule) (prio : string) :
  CurrentRule (this s) = Some cr ->
  elbv2.IsDefault cr = Some false ->
  elbv2.Priority cr = Some prio ->
  let input := {| elbv2.inRuleArn := elbv2.RuleArn cr |} in
  delete ALBsvc rOpts s =
  match DeleteRule ALBsvc input with
  | Some err =>
      (Returned (Some err),
       {| this := this s;
          calls := (calls s ++ [DeleteRuleCall input]) ++
                   [EventfCall EventTypeWarning "ERROR"
                      ("Error deleting " ++ prio ++ " rule: " ++ Error err)%string] |})
  | None =>
      (Returned None,
       {| this := withDeleted true (this s);
          calls := calls s ++ [DeleteRuleCall input] |})
  end%list.
Proof.
  intros Hc Hd Hp input. unfold delete. run. rewrite Hc. run. rewrite Hd. run.
  fold input. destruct (DeleteRule ALBsvc input) as [err |]; run.
  - rewrite Hp. reflexivity.
  - reflexivity.
Qed.

(** C1. When the desired snapshot is absent and the current one is present
    and not the default rule (a snapshot as the provider gives it, with its
    priority), [Reconcile] sends exactly one request to the rule API, a
    delete of the current rule's ARN.  If the provider accepts it,
    [Reconcile] returns [nil] and the deleted marker is true; if the
    provider answers an error, [Reconcile] returns that very error and the
    deleted marker is as it was, so false when it was false. *)
Theorem Reconcile_deletes (rOpts : ReconcileOptions) (l : Listener)
        (s : State) (cr : elbv2.Rule) (prio : string) :
  DesiredRule (this s) = None ->
  CurrentRule (this s) = Some cr ->
  elbv2.IsDefault cr = Some false ->
  elbv2.Priority cr = Some prio ->
  let input := {| elbv2.inRuleArn := elbv2.RuleArn cr |} in
  exists (res : outcome (option error)) (s' : State),
    Reconcile ALBsvc Prettify rOpts l s = (res, s') /\
    apiCalls (calls s') = (apiCalls (calls s) ++ [DeleteRuleCall input])%list /\
    CurrentRule (this s') = Some cr /\
    match DeleteRule ALBsvc input with
    | None => res = Returned None /\ deleted (this s') = true
    | Some err =>
        res = Returned (Some err) /\
        deleted (this s') = deleted (this s) /\
        (deleted (this s) = false -> deleted (this s') = false)
    end.
Proof.
  intros Hd Hc Hdef Hp input.
  pose proof (delete_present rOpts s cr prio Hc Hdef Hp) as Hdel.
  cbv zeta in Hdel. fold input in Hdel.
  unfold Reconcile. run. rewrite Hd, Hc. run. rewrite Hdef. run.
  rewrite Hdel.
  destruct (DeleteRule ALBsvc input) as [err |].
  - eexists _, _. split; [reflexivity |]. cbn [this calls].
    rewrite !apiCalls_app. cbn. rewrite app_nil_r.
    repeat split; auto.
  - cbn [this calls withDeleted CurrentRule]. rewrite Hc. run. rewrite Hp.
    eexists _, _. split; [reflexivity |]. cbn [this calls].
    rewrite !apiCalls_app. cbn. rewrite app_nil_r.
    repeat split; auto.
Qed.

(** C5. When the desired snapshot is the default rule, [Reconcile] returns
    [nil] without any call (no create, delete or modify request, no event),
    and afterwards the current snapshot is the desired one. *)
Theorem Reconcile_default (rOpts : ReconcileOptions) (l : Listener)
        (s : State) (dr : elbv2.Rule) :
  DesiredRule (this s) = Some dr ->
  elbv2.IsDefault dr = Some true ->
  exists s' : State,
    Reconcile ALBsvc Prettify rOpts l s = (Returned None, s') /\
    calls s' = calls s /\
    CurrentRule (this s') = DesiredRule (this s') /\
    DesiredRule (this s') = Some dr /\
    svcName (this s') = svcName (this s) /\
    deleted (this s') = deleted (this s).
Proof.
  intros Hd Hdef. unfold Reconcile. run. rewrite Hd. run. rewrite Hdef. run.
  eexists. split; [reflexivity |]. cbn. rewrite Hd. repeat split.
Qed.

(** C6. When the desired snapshot is absent and the current one is absent
    or is the default rule, [Reconcile] returns [nil] and changes nothing:
    no call is made and the rule is as it was. *)
Theorem Reconcile_nothing_to_delete (rOpts : ReconcileOptions) (l : Listener)
        (s : State) :
  DesiredRule (this s) = None ->
  (CurrentRule (this s) = None \/
   exists cr, CurrentRule (this s) = Some cr /\ elbv2.IsDefault cr = Some true) ->
  Reconcile ALBsvc Prettify rOpts l s = (Returned None, s).
Proof.
  intros Hd [Hc | (cr & Hc & Hdef)]; unfold Reconcile; run; rewrite Hd, Hc.
  - reflexivity.
  - run. rewrite Hdef. reflexivity.
Qed.

End Reconciliation.

(** ** The rendering of condition lists is faithful *)

Lemma append_assoc (a b c : string) :
  ((a ++ b) ++ c = a ++ (b ++ c))%string.
Proof. induction a as [| ch a IH]; cbn; [reflexivity | now rewrite IH]. Qed.

Lemma renderLength_readable : readable renderLength.
Proof.
  intros n. induction n as [| n IH]; intros [| m] x y H; cbn in H;
    try discriminate.
  - injection H as H. auto.
  - injection H as H. destruct (IH _ _ _ H). auto.
Qed.

Lemma append_same_length (s t x y : string) :
  String.length s = String.length t ->
  (s ++ x = t ++ y)%string -> s = t /\ x = y.
Proof.
  revert t. induction s as [| c s IH]; intros [| d t] Hlen H; cbn in *;
    try discriminate; auto.
  injection Hlen as Hlen. injection H as Hc H.
  destruct (IH _ Hlen H). subst. auto.
Qed.

Lemma renderString_readable : readable renderString.
Proof.
  intros s t x y H. unfold renderString in H. rewrite !append_assoc in H.
  apply renderLength_readable in H. destruct H as [Hlen H].
  now apply append_same_length.
Qed.

Lemma renderOption_readable {A : Type} (render : A -> string) :
  readable render -> readable (renderOption render).
Proof.
  intros Hr [a |] [b |] x y H; cbn in H; try discriminate.
  - injection H as H. destruct (Hr _ _ _ _ H). subst. auto.
  - injection H as H. auto.
Qed.

Lemma renderList_readable {A : Type} (render : A -> string) :
  readable render -> readable (renderList render).
Proof.
  intros Hr l. induction l as [| a l IH]; intros [| b m] x y H; cbn in H;
    try discriminate.
  - injection H as H. auto.
  - injection H as H. rewrite !append_assoc in H.
    destruct (Hr _ _ _ _ H) as [-> H']. destruct (IH _ _ _ H') as [-> ->]. auto.
Qed.

Lemma renderCondition_readable : readable renderCondition.
Proof.
  intros [f v] [g w] x y H. unfold renderCondition in H. cbn in H.
  rewrite !append_assoc in H.
  destruct (renderOption_readable _ renderString_readable _ _ _ _ H) as [-> H'].
  destruct (renderList_readable _ (renderOption_readable _ renderString_readable)
              _ _ _ _ H') as [-> ->].
  auto.
Qed.

Lemma append_empty (a : string) : (a ++ "")%string = a.
Proof. induction a as [| ch a IH]; cbn; [reflexivity | now rewrite IH]. Qed.

Lemma renderConditions_inj : structural renderConditions.
Proof.
  intros a b H.
  destruct (renderList_readable _ (renderOption_readable _ renderCondition_readable)
              a b "" "") as [Hab _]; [| exact Hab].
  unfold renderConditions in H. now rewrite !append_empty.
Qed.

(** ** The comparison predicates *)

(** C7. [needsModification] changes neither the rule nor the outside world.
    With a rendering that tells different condition lists apart, it returns
    true when the current snapshot is absent, true when the two snapshots'
    condition lists differ (in an element or in their order) and false when
    they are the same list; its result depends on the two snapshots through
    their condition lists only, so not on their actions, target groups or
    priorities. *)
Theorem needsModification_spec
        (Prettify : list (option elbv2.RuleCondition) -> string)
        (faithful : structural Prettify)
        (s : State) :
  snd (needsModification Prettify s) = s /\
  (CurrentRule (this s) = None ->
   fst (needsModification Prettify s) = Returned true) /\
  (forall cr dr,
      CurrentRule (this s) = Some cr -> DesiredRule (this s) = Some dr ->
      (elbv2.Conditions cr <> elbv2.Conditions dr ->
       fst (needsModification Prettify s) = Returned true) /\
      (elbv2.Conditions cr = elbv2.Conditions dr ->
       fst (needsModification Prettify s) = Returned false)) /\
  (forall s2 : State,
      option_map elbv2.Conditions (CurrentRule (this s2))
      = option_map elbv2.Conditions (CurrentRule (this s)) ->
      option_map elbv2.Conditions (DesiredRule (this s2))
      = option_map elbv2.Conditions (DesiredRule (this s)) ->
      fst (needsModification Prettify s2) = fst (needsModification Prettify s)).
Proof.
  unfold needsModification. run. repeat split.
  - destruct (CurrentRule (this s)) as [cr |]; [| reflexivity].
    destruct (DesiredRule (this s)) as [dr |]; [| reflexivity].
    run. destruct (String.eqb _ _); reflexivity.
  - intros Hc. now rewrite Hc.
  - intros Hne. rewrite H, H0. run.
    destruct (String.eqb_spec (Prettify (elbv2.Conditions cr))
                              (Prettify (elbv2.Conditions dr))) as [E | E].
    + now apply faithful in E.
    + reflexivity.
  - intros Heq. rewrite H, H0. run. rewrite Heq, String.eqb_refl. reflexivity.
  - intros s2 Hc Hd.
    destruct (CurrentRule (this s2)) as [c2 |], (CurrentRule (this s)) as [c |];
      try discriminate; [| reflexivity].
    destruct (DesiredRule (this s2)) as [d2 |], (DesiredRule (this s)) as [d |];
      try discriminate; [| reflexivity].
    cbn in Hc, Hd. injection Hc as Hc. injection Hd as Hd. run.
    rewrite Hc, Hd. destruct (String.eqb _ _); reflexivity.
Qed.

(** C8. [CurrentEquals] changes nothing; it returns false when the current
    snapshot is absent, and otherwise returns true exactly when [DeepEqual]
    holds of the two priorities and of the two condition lists. *)
Theorem CurrentEquals_spec
        (DeepEqualPriority : DeepEq (option string))
        (DeepEqualConditions : DeepEq (list (option elbv2.RuleCondition)))
        (s : State) (target : elbv2.Rule) :
  snd (CurrentEquals (Some target) s) = s /\
  (CurrentRule (this s) = None ->
   fst (CurrentEquals (Some target) s) = Returned false) /\
  (forall cr,
      CurrentRule (this s) = Some cr ->
      fst (CurrentEquals (Some target) s)
      = Returned (DeepEqual (elbv2.Priority cr) (elbv2.Priority target)
                  && DeepEqual (elbv2.Conditions cr) (elbv2.Conditions target)) /\
      (fst (CurrentEquals (Some target) s) = Returned true <->
       DeepEqual (elbv2.Priority cr) (elbv2.Priority target) = true /\
       DeepEqual (elbv2.Conditions cr) (elbv2.Conditions target) = true)).
Proof.
  unfold CurrentEquals. run. repeat split.
  - destruct (CurrentRule (this s)) as [cr |]; [| reflexivity]. run.
    destruct (DeepEqual (elbv2.Priority cr) (elbv2.Priority target));
      destruct (DeepEqual (elbv2.Conditions cr) (elbv2.Conditions target));
      reflexivity.
  - intros Hc. now rewrite Hc.
  - rewrite H. run.
    destruct (DeepEqual (elbv2.Priority cr) (elbv2.Priority target));
      destruct (DeepEqual (elbv2.Conditions cr) (elbv2.Conditions target));
      reflexivity.
  - rewrite H in H0. run.
    destruct (DeepEqual (elbv2.Priority cr) (elbv2.Priority target));
      [reflexivity | discriminate].
  - rewrite H in H0. run.
    destruct (DeepEqual (elbv2.Priority cr) (elbv2.Priority target));
      destruct (DeepEqual (elbv2.Conditions cr) (elbv2.Conditions target));
      try reflexivity; discriminate.
  - intros [Hp Hcs]. rewrite H. run. now rewrite Hp, Hcs.
Qed.

(** ** The create path *)

(** Without a resolved target group on the current action and without a
    target group of the rule's service, [targetGroupArn] returns [nil]. *)
Lemma targetGroupArn_unresolved (tgs : TargetGroups) (s : State) :
  (CurrentRule (this s) = None \/
   exists cr a acts,
     CurrentRule (this s) = Some cr /\
     elbv2.Actions cr = Some a :: acts /\
     elbv2.TargetGroupArn a = None) ->
  LookupBySvc tgs (svcName (this s)) < 0 ->
  targetGroupArn tgs s = (Returned None, s).
Proof.
  intros Hc Hl. apply Z.ltb_lt in Hl. unfold targetGroupArn. run.
  destruct Hc as [Hc | (cr & a & acts & Hc & Ha & Harn)]; rewrite Hc; run.
  - rewrite Hl. reflexivity.
  - rewrite Ha. run. rewrite Harn. cbn [isSome]. rewrite Hl. reflexivity.
Qed.

(** In that case [create] still sends its request, with no target group in
    the action, and what it returns is the provider's answer. *)
Lemma create_unresolved (ALBsvc : ELBV2API) (rOpts : ReconcileOptions)
      (l : Listener) (s : State) (dr : elbv2.Rule) (cl : elbv2.Listener)
      (prio : Z) (a0 : elbv2.Action) (acts : list (option elbv2.Action)) :
  DesiredRule (this s) = Some dr ->
  (CurrentRule (this s) = None \/
   exists cr a acts',
     CurrentRule (this s) = Some cr /\
     elbv2.Actions cr = Some a :: acts' /\
     elbv2.TargetGroupArn a = None) ->
  CurrentListener l = Some cl ->
  priority (elbv2.Priority dr) = Returned prio ->
  elbv2.Actions dr = Some a0 :: acts ->
  LookupBySvc (lbTargetGroups (loadbalancer rOpts)) (svcName (this s)) < 0 ->
  let input :=
    {| elbv2.inActions := Some (withTargetGroupArn None a0) :: acts;
       elbv2.inConditions := elbv2.Conditions dr;
       elbv2.inListenerArn := elbv2.ListenerArn cl;
       elbv2.inPriority := Some prio |} in
  exists (res : outcome (option error)) (s' : State),
    create ALBsvc rOpts l s = (res, s') /\
    apiCalls (calls s') = (apiCalls (calls s) ++ [CreateRuleCall input])%list /\
    (forall err, snd (CreateRule ALBsvc input) = Some err -> res = Returned (Some err)).
Proof.
  intros Hd Hc Hl Hp Ha Hlk input.
  unfold create. run. rewrite Hd. run. rewrite Hl. run. rewrite Hp. run.
  rewrite Ha. run.
  rewrite (targetGroupArn_unresolved _ s Hc Hlk). run. cbn [tl]. fold input.
  destruct (CreateRule ALBsvc input) as [o [err |]]; run.
  - eexists _, _. split; [reflexivity |]. cbn [this calls snd].
    rewrite !apiCalls_app. cbn. rewrite ?app_nil_r.
    split; [reflexivity |]. intros e He. now injection He as ->.
  - destruct o as [o |]; run.
    + destruct (elbv2.Rules o) as [| r0 rs]; run;
        (eexists _, _; split; [reflexivity |]; cbn [this calls snd];
         rewrite !apiCalls_app; cbn; rewrite ?app_nil_r;
         split; [reflexivity | discriminate]).
    + eexists _, _. split; [reflexivity |]. cbn [this calls snd].
      rewrite !apiCalls_app. cbn. rewrite ?app_nil_r.
      split; [reflexivity | discriminate].
Qed.

(** C3. What the code does on the create path when no target group is
    resolved: for [exampleRule] (service svc-a) and a load balancer whose only
    target group belongs to svc-b, the lookup answers -1, and whatever the
    provider, [create] sends one create request, whose action has no target
    group; with a provider that accepts it, [Reconcile] returns [nil]. *)
Theorem create_sends_unresolved_target_group :
  LookupBySvc (lbTargetGroups (loadbalancer exampleOptions)) (svcName exampleRule)
  = -1 /\
  elbv2.inActions exampleRequest
  = [ Some {| elbv2.TargetGroupArn := None; elbv2.Type_ := Some "forward" |} ] /\
  (forall ALBsvc : ELBV2API,
      exists (res : outcome (option error)) (s' : State),
        create ALBsvc exampleOptions exampleListener (start exampleRule) = (res, s') /\
        apiCalls (calls s') = [ CreateRuleCall exampleRequest ]) /\
  (forall Prettify,
      fst (Reconcile acceptingALB Prettify exampleOptions exampleListener
             (start exampleRule)) = Returned None /\
      apiCalls (calls (snd (Reconcile acceptingALB Prettify exampleOptions
                              exampleListener (start exampleRule))))
      = [ CreateRuleCall exampleRequest ]).
Proof.
  split; [reflexivity |]. split; [reflexivity |]. split.
  - intros ALBsvc.
    destruct (create_unresolved ALBsvc exampleOptions exampleListener
                (start exampleRule) _ _ 3 _ _
                eq_refl (or_introl eq_refl) eq_refl eq_refl eq_refl)
      as (res & s' & Hrun & Hcalls & _).
    + reflexivity.
    + exists res, s'. split; [exact Hrun | exact Hcalls].
  - intros Prettify. split; reflexivity.
Qed.

(** ** The theorems at sample values *)

Lemma delete_absent_witness :
  CurrentRule (this (start exampleRule)) = None /\
  delete acceptingALB exampleOptions (start exampleRule)
  = (Returned None, start exampleRule).
Proof.
  split; [reflexivity |].
  apply (delete_absent acceptingALB exampleOptions (start exampleRule)).
  reflexivity.
Defined.

Lemma Reconcile_deletes_witness :
  (exists s',
      Reconcile acceptingALB renderConditions exampleOptions exampleListener
        (start (NewRuleFromAWSRule (Some observedRule))) = (Returned None, s') /\
      apiCalls (calls s')
      = [ DeleteRuleCall {| elbv2.inRuleArn := Some "arn:rule/3" |} ] /\
      deleted (this s') = true) /\
  (exists s',
      Reconcile refusingALB renderConditions exampleOptions exampleListener
        (start (NewRuleFromAWSRule (Some observedRule)))
      = (Returned (Some {| Error := "AccessDenied" |}), s') /\
      apiCalls (calls s')
      = [ DeleteRuleCall {| elbv2.inRuleArn := Some "arn:rule/3" |} ] /\
      deleted (this s') = false).
Proof.
  split.
  - destruct (Reconcile_deletes acceptingALB renderConditions exampleOptions
                exampleListener (start (NewRuleFromAWSRule (Some observedRule)))
                observedRule "3" eq_refl eq_refl eq_refl eq_refl)
      as (res & s' & Hrun & Hcalls & _ & Hres & Hdel).
    exists s'. rewrite Hrun, Hres. repeat split; assumption.
  - destruct (Reconcile_deletes refusingALB renderConditions exampleOptions
                exampleListener (start (NewRuleFromAWSRule (Some observedRule)))
                observedRule "3" eq_refl eq_refl eq_refl eq_refl)
      as (res & s' & Hrun & Hcalls & _ & Hres & _ & Hdel).
    exists s'. rewrite Hrun, Hres. repeat split; [assumption |].
    apply Hdel. reflexivity.
Defined.

Lemma Reconcile_default_witness :
  exists s',
    Reconcile refusingALB renderConditions exampleOptions exampleListener
      (start (NewRule 0 "example.com" "" "svc-a")) = (Returned None, s') /\
    calls s' = [] /\
    CurrentRule (this s') = DesiredRule (this s').
Proof.
  destruct (Reconcile_default refusingALB renderConditions exampleOptions
              exampleListener (start (NewRule 0 "example.com" "" "svc-a"))
              _ eq_refl eq_refl)
    as (s' & Hrun & Hcalls & Hcur & _).
  exists s'. repeat split; assumption.
Defined.

Lemma Reconcile_nothing_to_delete_witness :
  Reconcile refusingALB renderConditions exampleOptions exampleListener
    (start (NewRuleFromAWSRule (Some defaultRule)))
  = (Returned None, start (NewRuleFromAWSRule (Some defaultRule))) /\
  Reconcile refusingALB renderConditions exampleOptions exampleListener
    (start (NewRuleFromAWSRule None))
  = (Returned None, start (NewRuleFromAWSRule None)).
Proof.
  split.
  - apply (Reconcile_nothing_to_delete refusingALB renderConditions
             exampleOptions exampleListener
             (start (NewRuleFromAWSRule (Some defaultRule)))).
    + reflexivity.
    + right. exists defaultRule. split; reflexivity.
  - apply (Reconcile_nothing_to_delete refusingALB renderConditions
             exampleOptions exampleListener (start (NewRuleFromAWSRule None))).
    + reflexivity.
    + left. reflexivity.
Defined.

Lemma needsModification_spec_witness :
  fst (needsModification renderConditions
         (start {| CurrentRule := Some observedRule;
                   DesiredRule := Some swappedRule;
                   svcName := "svc-a"; deleted := false |}))
  = Returned true /\
  fst (needsModification renderConditions
         (start {| CurrentRule := Some observedRule;
                   DesiredRule := DesiredRule exampleRule;
                   svcName := "svc-a"; deleted := false |}))
  = Returned false.
Proof.
  split.
  - destruct (needsModification_spec renderConditions renderConditions_inj
                (start {| CurrentRule := Some observedRule;
                          DesiredRule := Some swappedRule;
                          svcName := "svc-a"; deleted := false |}))
      as (_ & _ & H & _).
    apply (H observedRule swappedRule eq_refl eq_refl). discriminate.
  - destruct (needsModification_spec renderConditions renderConditions_inj
                (start {| CurrentRule := Some observedRule;
                          DesiredRule := DesiredRule exampleRule;
                          svcName := "svc-a"; deleted := false |}))
      as (_ & _ & H & _).
    apply (H observedRule _ eq_refl eq_refl). reflexivity.
Defined.

Lemma CurrentEquals_spec_witness :
  fst (@CurrentEquals eqbPriority eqbConditions (DesiredRule exampleRule)
         (start (NewRuleFromAWSRule (Some observedRule)))) = Returned true /\
  fst (@CurrentEquals eqbPriority eqbConditions (Some swappedRule)
         (start (NewRuleFromAWSRule (Some observedRule)))) = Returned false /\
  fst (@CurrentEquals eqbPriority eqbConditions (Some observedRule)
         (start exampleRule)) = Returned false.
Proof.
  split; [| split].
  - destruct (CurrentEquals_spec eqbPriority eqbConditions
                (start (NewRuleFromAWSRule (Some observedRule)))
                {| elbv2.Actions :=
                     [ Some {| elbv2.TargetGroupArn := None;
                               elbv2.Type_ := Some "forward" |} ];
                   elbv2.Conditions := elbv2.Conditions observedRule;
                   elbv2.IsDefault := Some false;
                   elbv2.Priority := Some "3";
                   elbv2.RuleArn := None |})
      as (_ & _ & H).
    destruct (H observedRule eq_refl) as [_ [_ Hiff]].
    apply Hiff. split; reflexivity.
  - destruct (CurrentEquals_spec eqbPriority eqbConditions
                (start (NewRuleFromAWSRule (Some observedRule))) swappedRule)
      as (_ & _ & H).
    destruct (H observedRule eq_refl) as [Hval _]. exact Hval.
  - destruct (CurrentEquals_spec eqbPriority eqbConditions
                (start exampleRule) observedRule)
      as (_ & H & _).
    apply H. reflexivity.
Defined.

(** * Further properties of rule.go *)

(** ** The priority codec on every [int64] *)

Lemma ParseInt_Sprintf_v_neg (p : Z) :
  MinInt64 <= p < 0 -> strconv.ParseInt (fmt.Sprintf_v p) = (p, None).
Proof.
  intros Hp. unfold MinInt64 in Hp.
  change (- 2 ^ 63) with (-9223372036854775808) in Hp.
  unfold fmt.Sprintf_v.
  replace (p <? 0) with true by (symmetry; apply Z.ltb_lt; lia).
  destruct (fmtInteger_loop_head 19 (- p) "" ltac:(lia)) as (d & s & Hd & Hs).
  assert (Hparse : strconv.ParseUint_loop (fmt.fmtInteger_loop 20 (- p) "") 0
                   = (- p, None)).
  { rewrite ParseUint_loop_fmtInteger_loop.
    - reflexivity.
    - change (10 ^ Z.of_nat 20) with 100000000000000000000. lia.
    - rewrite maxUint64_val. lia. }
  rewrite Hs in *.
  unfold strconv.ParseInt.
  change (Ascii.eqb "-" "+") with false. change (Ascii.eqb "-" "-") with true.
  cbv iota. unfold strconv.ParseUint. cbn [String.eqb]. rewrite Hparse.
  cbn [negb andb].
  change (2 ^ 63) with 9223372036854775808.
  replace (9223372036854775808 <? - p) with false by (symmetry; apply Z.ltb_ge; lia).
  f_equal. lia.
Qed.

(** X7. For every priority in the range of an [int64], zero and the negative
    numbers included, [priority] reads back from the desired rule of
    [NewRule] the priority that [NewRule] was given. *)
Theorem priority_NewRule_inverse (p : Z) (hostname path svcname : string) :
  MinInt64 <= p <= MaxInt64 ->
  priority (desiredPriority (NewRule p hostname path svcname)) = Returned p.
Proof.
  intros Hp. unfold NewRule, desiredPriority.
  destruct (Z.eqb_spec p 0) as [-> | Hnz]; [reflexivity |].
  cbn. destruct (Z.ltb_spec p 0) as [Hneg | Hpos].
  - rewrite ParseInt_Sprintf_v_neg by lia.
    unfold fmt.Sprintf_v. replace (p <? 0) with true by (symmetry; apply Z.ltb_lt; lia).
    reflexivity.
  - rewrite Sprintf_v_not_default by lia.
    rewrite ParseInt_Sprintf_v by lia. reflexivity.
Qed.

Lemma priority_NewRule_inverse_witness :
  MinInt64 <= -7 <= MaxInt64 /\
  priority (desiredPriority (NewRule (-7) "example.com" "/api" "svc-a"))
  = Returned (-7).
Proof.
  split; [unfold MinInt64, MaxInt64; lia |].
  apply (priority_NewRule_inverse (-7) "example.com" "/api" "svc-a").
  unfold MinInt64, MaxInt64. lia.
Defined.

(** ** What [ParseInt] and [priority] return on any string *)

Ltac settle :=
  cbn; repeat split; intros; try discriminate; try reflexivity; try lia; auto.

Lemma ParseUint_loop_result (s : string) :
  forall n : Z,
    0 <= n <= strconv.maxUint64 ->
    0 <= fst (strconv.ParseUint_loop s n) <= strconv.maxUint64 /\
    (snd (strconv.ParseUint_loop s n) = Some strconv.ErrSyntax ->
     fst (strconv.ParseUint_loop s n) = 0) /\
    (snd (strconv.ParseUint_loop s n) = Some strconv.ErrRange ->
     fst (strconv.ParseUint_loop s n) = strconv.maxUint64).
Proof.
  unfold strconv.maxUint64. change (2 ^ 64 - 1) with 18446744073709551615.
  induction s as [| c s IH]; intros n Hn; cbn [strconv.ParseUint_loop].
  - settle.
  - unfold strconv.maxUint64. change (2 ^ 64 - 1) with 18446744073709551615.
    destruct (strconv.digitval c) as [d |];
      [| settle].
    destruct (10 <=? d); [settle |].
    destruct (18446744073709551615 / 10 + 1 <=? n);
      [settle |].
    cbv zeta.
    destruct ((((n * 10) mod 2 ^ 64 + d) mod 2 ^ 64 <? (n * 10) mod 2 ^ 64)
              || (18446744073709551615 <? ((n * 10) mod 2 ^ 64 + d) mod 2 ^ 64))
             eqn:E; [settle |].
    apply orb_false_iff in E. destruct E as [_ E]. apply Z.ltb_ge in E.
    apply IH. split; [| exact E].
    apply Z.mod_pos_bound. rewrite pow64_val. lia.
Qed.

Lemma ParseInt_result (s : string) :
  MinInt64 <= fst (strconv.ParseInt s) <= MaxInt64 /\
  (snd (strconv.ParseInt s) = Some strconv.ErrSyntax ->
   fst (strconv.ParseInt s) = 0) /\
  (snd (strconv.ParseInt s) = Some strconv.ErrRange ->
   fst (strconv.ParseInt s) = MaxInt64 \/ fst (strconv.ParseInt s) = MinInt64).
Proof.
  unfold MinInt64, MaxInt64.
  change (- 2 ^ 63) with (-9223372036854775808).
  change (2 ^ 63 - 1) with 9223372036854775807.
  destruct s as [| c s]; [settle |].
  unfold strconv.ParseInt.
  set (parsed := if Ascii.eqb c "+" then (false, s)
                 else if Ascii.eqb c "-" then (true, s)
                 else (false, String c s)).
  destruct parsed as [neg s1]. unfold strconv.ParseUint.
  destruct (String.eqb s1 ""); [settle |].
  pose proof (ParseUint_loop_result s1 0 ltac:(rewrite maxUint64_val; lia))
    as (Hrange & Hsyn & Hrng).
  rewrite maxUint64_val in *.
  destruct (strconv.ParseUint_loop s1 0) as [un err]. cbn [fst snd] in *.
  change (2 ^ 63) with 9223372036854775808.
  destruct err as [[|] |].
  - settle.
  - specialize (Hrng eq_refl). subst un.
    destruct neg; settle.
  - destruct neg; cbn [negb andb].
    + destruct (Z.ltb_spec 9223372036854775808 un); settle.
    + destruct (Z.leb_spec 9223372036854775808 un); settle.
Qed.

(** X8. On any string [priority] returns a number in the range of an
    [int64]; when the string is not ["default"] and [ParseInt] reports a
    syntax error this number is 0, and when [ParseInt] reports a range error
    it is [MaxInt64] or [MinInt64]. *)
Theorem priority_result (s : string) :
  exists v : Z,
    priority (Some s) = Returned v /\
    MinInt64 <= v <= MaxInt64 /\
    (String.eqb s "default" = false ->
     snd (strconv.ParseInt s) = Some strconv.ErrSyntax -> v = 0) /\
    (String.eqb s "default" = false ->
     snd (strconv.ParseInt s) = Some strconv.ErrRange ->
     v = MaxInt64 \/ v = MinInt64).
Proof.
  destruct (ParseInt_result s) as (Hrange & Hsyn & Hrng).
  unfold priority. destruct (String.eqb s "default").
  - exists 0. split; [reflexivity |].
    split; [unfold MinInt64, MaxInt64; lia |]. split; discriminate.
  - destruct (strconv.ParseInt s) as [i err]. cbn [fst snd] in *.
    exists i. repeat split; auto; lia.
Qed.

(** ** The create path, resolved or not *)

(** What [create] does once [targetGroupArn] has answered [arn]. *)
Lemma create_run (ALBsvc : ELBV2API) (rOpts : ReconcileOptions) (l : Listener)
      (s : State) (dr : elbv2.Rule) (cl : elbv2.Listener) (prio : Z)
      (arn : option string) (a0 : elbv2.Action)
      (acts : list (option elbv2.Action)) :
  DesiredRule (this s) = Some dr ->
  CurrentListener l = Some cl ->
  priority (elbv2.Priority dr) = Returned prio ->
  elbv2.Actions dr = Some a0 :: acts ->
  targetGroupArn (lbTargetGroups (loadbalancer rOpts)) s = (Returned arn, s) ->
  let input := requestFor dr cl prio arn a0 acts in
  let sent :=
    {| this := withDesiredRule
                 (Some (withActions (Some (withTargetGroupArn arn a0) :: acts) dr))
                 (this s);
       calls := (calls s ++ [CreateRuleCall input])%list |} in
  create ALBsvc rOpts l s =
  match snd (CreateRule ALBsvc input) with
  | Some err =>
      (Returned (Some err),
       {| this := this sent;
          calls := (calls sent ++
                    [EventfCall EventTypeWarning "ERROR"
                       ("Error creating " ++ fmt.Sprintf_v prio ++ " rule: "
                        ++ Error err)%string])%list |})
  | None =>
      match fst (CreateRule ALBsvc input) with
      | Some o =>
          match elbv2.Rules o with
          | r0 :: _ =>
              (Returned None,
               {| this := withCurrentRule r0 (this sent); calls := calls sent |})
          | [] => (Panicked, sent)
          end
      | None => (Panicked, sent)
      end
  end.
Proof.
  intros Hd Hl Hp Ha Htg input sent.
  unfold create. run. rewrite Hd. run. rewrite Hl. run. rewrite Hp. run.
  rewrite Ha. run. rewrite Htg. run. cbn [tl].
  change {| elbv2.inActions := Some (withTargetGroupArn arn a0) :: acts;
            elbv2.inConditions := elbv2.Conditions dr;
            elbv2.inListenerArn := elbv2.ListenerArn cl;
            elbv2.inPriority := Some prio |} with input.
  destruct (CreateRule ALBsvc input) as [o [err |]]; run; [reflexivity |].
  destruct o as [o |]; run; [| reflexivity].
  destruct (elbv2.Rules o) as [| r0 rs]; reflexivity.
Qed.

(** The state after an accepted creation. *)
Lemma Reconcile_create_accepted (ALBsvc : ELBV2API)
        (Prettify : list (option elbv2.RuleCondition) -> string)
        (rOpts : ReconcileOptions) (l : Listener) (s : State)
        (dr : elbv2.Rule) (cl : elbv2.Listener) (prio : Z) (arn : option string)
        (a0 : elbv2.Action) (acts : list (option elbv2.Action))
        (o : elbv2.CreateRuleOutput) (r0 : elbv2.Rule)
        (rest : list (option elbv2.Rule)) (p0 : string) :
  CurrentRule (this s) = None ->
  DesiredRule (this s) = Some dr ->
  elbv2.IsDefault dr = Some false ->
  CurrentListener l = Some cl ->
  priority (elbv2.Priority dr) = Returned prio ->
  elbv2.Actions dr = Some a0 :: acts ->
  targetGroupArn (lbTargetGroups (loadbalancer rOpts)) s = (Returned arn, s) ->
  CreateRule ALBsvc (requestFor dr cl prio arn a0 acts) = (Some o, None) ->
  elbv2.Rules o = Some r0 :: rest ->
  elbv2.Priority r0 = Some p0 ->
  Reconcile ALBsvc Prettify rOpts l s =
  (Returned None,
   {| this :=
        {| CurrentRule := Some r0;
           DesiredRule :=
             Some (withActions (Some (withTargetGroupArn arn a0) :: acts) dr);
           svcName := svcName (this s);
           deleted := deleted (this s) |};
      calls :=
        (calls s ++
         [ CreateRuleCall (requestFor dr cl prio arn a0 acts);
           EventfCall EventTypeNormal "CREATE" (p0 ++ " rule created")%string ])%list |}).
Proof.
  intros Hc Hd Hdef Hl Hp Ha Htg Hans Hrules Hp0.
  pose proof (create_run ALBsvc rOpts l s dr cl prio arn a0 acts Hd Hl Hp Ha Htg)
    as Hcreate.
  cbv zeta in Hcreate. rewrite Hans in Hcreate. cbn [fst snd] in Hcreate.
  rewrite Hrules in Hcreate.
  unfold Reconcile. run. rewrite Hd. run. rewrite Hdef. run. rewrite Hc.
  rewrite Hcreate. cbn [this calls withCurrentRule withDesiredRule CurrentRule
                        DesiredRule svcName deleted].
  run. rewrite Hp0. cbn -[String.append]. rewrite <- app_assoc. reflexivity.
Qed.

(** X1. On a rule without a current snapshot whose desired snapshot is not
    the default rule, when the provider accepts the request and answers a
    rule, [Reconcile] returns [nil] after one create request, which carries
    the desired actions with the resolved target group written into the first
    one, the desired conditions, the listener's ARN and the decoded priority;
    the answered rule is the current snapshot, the desired rule's first
    action holds the resolved target group, and one CREATE event is emitted
    with the answered rule's priority. *)
Theorem Reconcile_creates (ALBsvc : ELBV2API)
        (Prettify : list (option elbv2.RuleCondition) -> string)
        (rOpts : ReconcileOptions) (l : Listener) (s : State)
        (dr : elbv2.Rule) (cl : elbv2.Listener) (prio : Z) (arn : option string)
        (a0 : elbv2.Action) (acts : list (option elbv2.Action))
        (o : elbv2.CreateRuleOutput) (r0 : elbv2.Rule)
        (rest : list (option elbv2.Rule)) (p0 : string) :
  CurrentRule (this s) = None ->
  DesiredRule (this s) = Some dr ->
  elbv2.IsDefault dr = Some false ->
  CurrentListener l = Some cl ->
  priority (elbv2.Priority dr) = Returned prio ->
  elbv2.Actions dr = Some a0 :: acts ->
  targetGroupArn (lbTargetGroups (loadbalancer rOpts)) s = (Returned arn, s) ->
  CreateRule ALBsvc (requestFor dr cl prio arn a0 acts) = (Some o, None) ->
  elbv2.Rules o = Some r0 :: rest ->
  elbv2.Priority r0 = Some p0 ->
  Reconcile ALBsvc Prettify rOpts l s =
  (Returned None,
   {| this :=
        {| CurrentRule := Some r0;
           DesiredRule :=
             Some (withActions (Some (withTargetGroupArn arn a0) :: acts) dr);
           svcName := svcName (this s);
           deleted := deleted (this s) |};
      calls :=
        (calls s ++
         [ CreateRuleCall (requestFor dr cl prio arn a0 acts);
           EventfCall EventTypeNormal "CREATE" (p0 ++ " rule created")%string ])%list |}).
Proof. intros. eapply Reconcile_create_accepted; eassumption. Qed.

(** The state after a refused creation. *)
Lemma Reconcile_create_refused_run (ALBsvc : ELBV2API)
        (Prettify : list (option elbv2.RuleCondition) -> string)
        (rOpts : ReconcileOptions) (l : Listener) (s : State)
        (dr : elbv2.Rule) (cl : elbv2.Listener) (prio : Z) (arn : option string)
        (a0 : elbv2.Action) (acts : list (option elbv2.Action))
        (o : option elbv2.CreateRuleOutput) (err : error) :
  CurrentRule (this s) = None ->
  DesiredRule (this s) = Some dr ->
  elbv2.IsDefault dr = Some false ->
  CurrentListener l = Some cl ->
  priority (elbv2.Priority dr) = Returned prio ->
  elbv2.Actions dr = Some a0 :: acts ->
  targetGroupArn (lbTargetGroups (loadbalancer rOpts)) s = (Returned arn, s) ->
  CreateRule ALBsvc (requestFor dr cl prio arn a0 acts) = (o, Some err) ->
  Reconcile ALBsvc Prettify rOpts l s =
  (Returned (Some err),
   {| this :=
        {| CurrentRule := None;
           DesiredRule :=
             Some (withActions (Some (withTargetGroupArn arn a0) :: acts) dr);
           svcName := svcName (this s);
           deleted := deleted (this s) |};
      calls :=
        (calls s ++
         [ CreateRuleCall (requestFor dr cl prio arn a0 acts);
           EventfCall EventTypeWarning "ERROR"
             ("Error creating " ++ fmt.Sprintf_v prio ++ " rule: "
              ++ Error err)%string ])%list |}).
Proof.
  intros Hc Hd Hdef Hl Hp Ha Htg Hans.
  pose proof (create_run ALBsvc rOpts l s dr cl prio arn a0 acts Hd Hl Hp Ha Htg)
    as Hcreate.
  cbv zeta in Hcreate. rewrite Hans in Hcreate. cbn [fst snd] in Hcreate.
  unfold Reconcile. run. rewrite Hd. run. rewrite Hdef. run. rewrite Hc.
  rewrite Hcreate. cbn [this calls withCurrentRule withDesiredRule CurrentRule
                        DesiredRule svcName deleted].
  unfold withDesiredRule. rewrite Hc, <- app_assoc. reflexivity.
Qed.

(** X2. On the same path, when the provider answers an error, [Reconcile]
    returns that error after the one create request and one ERROR event that
    names the priority in decimal; the current snapshot is still absent, and
    the desired rule's first action already holds the resolved target
    group. *)
Theorem Reconcile_create_refused (ALBsvc : ELBV2API)
        (Prettify : list (option elbv2.RuleCondition) -> string)
        (rOpts : ReconcileOptions) (l : Listener) (s : State)
        (dr : elbv2.Rule) (cl : elbv2.Listener) (prio : Z) (arn : option string)
        (a0 : elbv2.Action) (acts : list (option elbv2.Action))
        (o : option elbv2.CreateRuleOutput) (err : error) :
  CurrentRule (this s) = None ->
  DesiredRule (this s) = Some dr ->
  elbv2.IsDefault dr = Some false ->
  CurrentListener l = Some cl ->
  priority (elbv2.Priority dr) = Returned prio ->
  elbv2.Actions dr = Some a0 :: acts ->
  targetGroupArn (lbTargetGroups (loadbalancer rOpts)) s = (Returned arn, s) ->
  CreateRule ALBsvc (requestFor dr cl prio arn a0 acts) = (o, Some err) ->
  Reconcile ALBsvc Prettify rOpts l s =
  (Returned (Some err),
   {| this :=
        {| CurrentRule := None;
           DesiredRule :=
             Some (withActions (Some (withTargetGroupArn arn a0) :: acts) dr);
           svcName := svcName (this s);
           deleted := deleted (this s) |};
      calls :=
        (calls s ++
         [ CreateRuleCall (requestFor dr cl prio arn a0 acts);
           EventfCall EventTypeWarning "ERROR"
             ("Error creating " ++ fmt.Sprintf_v prio ++ " rule: "
              ++ Error err)%string ])%list |}).
Proof. intros. eapply Reconcile_create_refused_run; eassumption. Qed.

(** ** A rule with both snapshots *)

(** The state after [Reconcile] on a rule with both snapshots. *)
Lemma Reconcile_paired_run (ALBsvc : ELBV2API)
        (Prettify : list (option elbv2.RuleCondition) -> string)
        (rOpts : ReconcileOptions) (l : Listener) (s : State)
        (cr dr : elbv2.Rule) (prio : string) :
  CurrentRule (this s) = Some cr ->
  DesiredRule (this s) = Some dr ->
  elbv2.IsDefault dr = Some false ->
  elbv2.Priority cr = Some prio ->
  Reconcile ALBsvc Prettify rOpts l s =
  (Returned None,
   {| this := this s;
      calls :=
        (calls s ++
         (if String.eqb (Prettify (elbv2.Conditions cr))
                        (Prettify (elbv2.Conditions dr))
          then []
          else [ EventfCall EventTypeNormal "MODIFY"
                   (prio ++ " rule modified")%string ]))%list |}).
Proof.
  intros Hc Hd Hdef Hp. unfold Reconcile, needsModification, modify. run.
  repeat (progress (rewrite ?Hc, ?Hd, ?Hdef; run)).
  destruct (String.eqb (Prettify (elbv2.Conditions cr))
                       (Prettify (elbv2.Conditions dr))); cbn [negb]; run.
  - rewrite app_nil_r. now destruct s.
  - rewrite Hc. run. rewrite Hp. reflexivity.
Qed.

(** X3. When both snapshots are present and the desired one is not the
    default rule, [Reconcile] returns [nil], sends nothing to the rule API
    and leaves the rule as it was, whether or not the condition lists render
    alike: when they render differently its only effect is one MODIFY event
    with the current priority. *)
Theorem Reconcile_paired (ALBsvc : ELBV2API)
        (Prettify : list (option elbv2.RuleCondition) -> string)
        (rOpts : ReconcileOptions) (l : Listener) (s : State)
        (cr dr : elbv2.Rule) (prio : string) :
  CurrentRule (this s) = Some cr ->
  DesiredRule (this s) = Some dr ->
  elbv2.IsDefault dr = Some false ->
  elbv2.Priority cr = Some prio ->
  Reconcile ALBsvc Prettify rOpts l s =
  (Returned None,
   {| this := this s;
      calls :=
        (calls s ++
         (if String.eqb (Prettify (elbv2.Conditions cr))
                        (Prettify (elbv2.Conditions dr))
          then []
          else [ EventfCall EventTypeNormal "MODIFY"
                   (prio ++ " rule modified")%string ]))%list |}).
Proof. intros. eapply Reconcile_paired_run; eassumption. Qed.

(** ** Reconciling twice *)

(** X4. Adopting a default rule is idempotent: after [Reconcile] on a rule
    whose desired snapshot is the default rule, a second [Reconcile] returns
    [nil] and changes nothing. *)
Theorem Reconcile_default_twice (ALBsvc : ELBV2API)
        (Prettify : list (option elbv2.RuleCondition) -> string)
        (rOpts : ReconcileOptions) (l : Listener) (s : State) (dr : elbv2.Rule) :
  DesiredRule (this s) = Some dr ->
  elbv2.IsDefault dr = Some true ->
  Reconcile ALBsvc Prettify rOpts l (snd (Reconcile ALBsvc Prettify rOpts l s))
  = (Returned None, snd (Reconcile ALBsvc Prettify rOpts l s)).
Proof.
  intros Hd Hdef.
  assert (Hfirst : Reconcile ALBsvc Prettify rOpts l s
                   = (Returned None,
                      {| this := withCurrentRule (Some dr) (this s);
                         calls := calls s |})).
  { unfold Reconcile. run. repeat (progress (rewrite ?Hd, ?Hdef; run)).
    reflexivity. }
  rewrite Hfirst. cbn [snd].
  unfold Reconcile. run.
  repeat (progress (cbn [withCurrentRule DesiredRule CurrentRule svcName deleted];
                    rewrite ?Hd, ?Hdef; run)).
  reflexivity.
Qed.



(** X6. After a successful creation whose answered rule carries the desired
    conditions, the rule is converged: a second [Reconcile] returns [nil],
    makes no call and changes nothing. *)
Theorem Reconcile_converged_after_create (ALBsvc : ELBV2API)
        (Prettify : list (option elbv2.RuleCondition) -> string)
        (rOpts : ReconcileOptions) (l : Listener) (s : State)
        (dr : elbv2.Rule) (cl : elbv2.Listener) (prio : Z) (arn : option string)
        (a0 : elbv2.Action) (acts : list (option elbv2.Action))
        (o : elbv2.CreateRuleOutput) (r0 : elbv2.Rule)
        (rest : list (option elbv2.Rule)) (p0 : string) :
  CurrentRule (this s) = None ->
  DesiredRule (this s) = Some dr ->
  elbv2.IsDefault dr = Some false ->
  CurrentListener l = Some cl ->
  priority (elbv2.Priority dr) = Returned prio ->
  elbv2.Actions dr = Some a0 :: acts ->
  targetGroupArn (lbTargetGroups (loadbalancer rOpts)) s = (Returned arn, s) ->
  CreateRule ALBsvc (requestFor dr cl prio arn a0 acts) = (Some o, None) ->
  elbv2.Rules o = Some r0 :: rest ->
  elbv2.Priority r0 = Some p0 ->
  elbv2.Conditions r0 = elbv2.Conditions dr ->
  Reconcile ALBsvc Prettify rOpts l (snd (Reconcile ALBsvc Prettify rOpts l s))
  = (Returned None, snd (Reconcile ALBsvc Prettify rOpts l s)).
Proof.
  intros Hc Hd Hdef Hl Hp Ha Htg Hans Hrules Hp0 Hconds.
  rewrite (Reconcile_create_accepted ALBsvc Prettify rOpts l s dr cl prio arn a0 acts
             o r0 rest p0 Hc Hd Hdef Hl Hp Ha Htg Hans Hrules Hp0).
  cbn [snd].
  match goal with
  | |- context [Reconcile ALBsvc Prettify rOpts l ?t] =>
      rewrite (Reconcile_paired_run ALBsvc Prettify rOpts l t r0
                 (withActions (Some (withTargetGroupArn arn a0) :: acts) dr) p0
                 eq_refl eq_refl Hdef Hp0)
  end.
  cbn [withActions elbv2.Conditions this calls].
  rewrite Hconds, String.eqb_refl, app_nil_r. reflexivity.
Qed.

(** ** A current snapshot without a priority *)

(** X12. When the desired snapshot is absent and the current one is not the
    default rule but has no priority, [Reconcile] still sends the delete
    request and then panics, whatever the provider answers: the event
    message dereferences the priority.  After an accepted request the
    deleted marker is already true. *)
Theorem Reconcile_deletes_without_priority (ALBsvc : ELBV2API)
        (Prettify : list (option elbv2.RuleCondition) -> string)
        (rOpts : ReconcileOptions) (l : Listener) (s : State) (cr : elbv2.Rule) :
  DesiredRule (this s) = None ->
  CurrentRule (this s) = Some cr ->
  elbv2.IsDefault cr = Some false ->
  elbv2.Priority cr = None ->
  fst (Reconcile ALBsvc Prettify rOpts l s) = Panicked /\
  calls (snd (Reconcile ALBsvc Prettify rOpts l s))
  = (calls s ++ [ DeleteRuleCall {| elbv2.inRuleArn := elbv2.RuleArn cr |} ])%list /\
  (DeleteRule ALBsvc {| elbv2.inRuleArn := elbv2.RuleArn cr |} = None ->
   deleted (this (snd (Reconcile ALBsvc Prettify rOpts l s))) = true).
Proof.
  intros Hd Hc Hdef Hp. unfold Reconcile, delete. run.
  repeat (progress (rewrite ?Hd, ?Hc, ?Hdef; run)).
  destruct (DeleteRule ALBsvc {| elbv2.inRuleArn := elbv2.RuleArn cr |})
    as [err |]; run;
    repeat (progress (cbn [withDeleted CurrentRule];
                      rewrite ?Hd, ?Hc, ?Hdef, ?Hp; run)).
  - repeat split. discriminate.
  - repeat split.
Qed.

(** ** What [Reconcile] does on any rule *)

Ltac unfold_methods :=
  unfold Reconcile, create, delete, modify, needsModification, targetGroupArn,
    index.

Ltac step_path :=
  run; cbn [this calls fst snd CurrentRule DesiredRule svcName deleted
            withCurrentRule withDesiredRule withDeleted isSome];
  match goal with
  | |- context [match ?x with _ => _ end] =>
      lazymatch x with
      | context [match _ with _ => _ end] => fail
      | _ => destruct x eqn:?
      end
  end.

Ltac paths := unfold_methods; repeat step_path; run;
  cbn [this calls fst snd CurrentRule DesiredRule svcName deleted
       withCurrentRule withDesiredRule withDeleted isSome].

Ltac suffix :=
  first [ reflexivity
        | symmetry; apply app_nil_r
        | rewrite <- !app_assoc; reflexivity ].

(** X9. Whatever the rule, the provider and the outcome (a return or a
    panic), [Reconcile] only adds calls to those already made and at most one
    of the added calls is a request to the rule API; it keeps the service
    name, never resets the deleted marker and never makes a desired snapshot
    appear or disappear. *)
Theorem Reconcile_frame (ALBsvc : ELBV2API)
        (Prettify : list (option elbv2.RuleCondition) -> string)
        (rOpts : ReconcileOptions) (l : Listener) (s : State) :
  (exists cs : list Call,
      calls (snd (Reconcile ALBsvc Prettify rOpts l s)) = (calls s ++ cs)%list /\
      (length (apiCalls cs) <= 1)%nat) /\
  svcName (this (snd (Reconcile ALBsvc Prettify rOpts l s))) = svcName (this s) /\
  (deleted (this s) = true ->
   deleted (this (snd (Reconcile ALBsvc Prettify rOpts l s))) = true) /\
  isSome (DesiredRule (this (snd (Reconcile ALBsvc Prettify rOpts l s))))
  = isSome (DesiredRule (this s)).
Proof.
  destruct s as [[cur des svc del] cs0].
  paths;
    (split; [eexists; split; [suffix | cbn; lia] | repeat split; auto]).
Qed.

(** X10. Whatever the rule and the provider, a delete request is added by
    [Reconcile] only when the desired snapshot is absent and the current one
    is present and not the default rule, and it names the current rule's ARN;
    a create request is added only when the current snapshot is absent and
    the desired one is present and not the default rule, and it carries the
    desired conditions, the listener's ARN and the decoded desired priority. *)
Theorem Reconcile_call_discipline (ALBsvc : ELBV2API)
        (Prettify : list (option elbv2.RuleCondition) -> string)
        (rOpts : ReconcileOptions) (l : Listener) (s : State) :
  exists cs : list Call,
    calls (snd (Reconcile ALBsvc Prettify rOpts l s)) = (calls s ++ cs)%list /\
    forall c : Call,
      In c (apiCalls cs) ->
      match c with
      | DeleteRuleCall i =>
          DesiredRule (this s) = None /\
          exists cr,
            CurrentRule (this s) = Some cr /\
            elbv2.IsDefault cr = Some false /\
            elbv2.inRuleArn i = elbv2.RuleArn cr
      | CreateRuleCall i =>
          CurrentRule (this s) = None /\
          exists dr cl prio,
            DesiredRule (this s) = Some dr /\
            elbv2.IsDefault dr = Some false /\
            CurrentListener l = Some cl /\
            priority (elbv2.Priority dr) = Returned prio /\
            elbv2.inConditions i = elbv2.Conditions dr /\
            elbv2.inListenerArn i = elbv2.ListenerArn cl /\
            elbv2.inPriority i = Some prio
      | EventfCall _ _ _ => False
      end.
Proof.
  destruct s as [[cur des svc del] cs0].
  paths;
    (eexists; split; [suffix |];
     intros ? ?;
     match goal with H : In _ _ |- _ => cbn in H end;
     repeat match goal with
            | H : _ \/ _ |- _ => destruct H as [H | H]
            | H : False |- _ => destruct H
            end;
     subst; cbn [elbv2.inRuleArn elbv2.inConditions elbv2.inListenerArn
                 elbv2.inPriority];
     (split; [reflexivity |]); repeat eexists; eauto).
Qed.

(** ** From [NewRule] to the create request *)

Lemma priority_Sprintf_v (p : Z) :
  MinInt64 <= p <= MaxInt64 -> p <> 0 ->
  priority (Some (fmt.Sprintf_v p)) = Returned p.
Proof.
  intros Hp Hnz. cbn [priority]. destruct (Z.ltb_spec p 0) as [Hneg | Hpos].
  - rewrite ParseInt_Sprintf_v_neg by lia.
    unfold fmt.Sprintf_v. replace (p <? 0) with true by (symmetry; apply Z.ltb_lt; lia).
    reflexivity.
  - rewrite Sprintf_v_not_default by lia.
    rewrite ParseInt_Sprintf_v by lia. reflexivity.
Qed.

Lemma NewRule_nonzero (p : Z) (hostname path svcname : string) :
  p <> 0 ->
  NewRule p hostname path svcname =
  {| CurrentRule := None;
     DesiredRule :=
       Some {| elbv2.Actions :=
                 [ Some {| elbv2.TargetGroupArn := None;
                           elbv2.Type_ := Some "forward" |} ];
               elbv2.Conditions :=
                 ((if String.eqb hostname "" then []
                   else [ Some {| elbv2.Field := Some "host-header";
                                  elbv2.Values := [ Some hostname ] |} ])
                  ++
                  (if String.eqb path "" then []
                   else [ Some {| elbv2.Field := Some "path-pattern";
                                  elbv2.Values := [ Some path ] |} ]))%list;
               elbv2.IsDefault := Some false;
               elbv2.Priority := Some (fmt.Sprintf_v p);
               elbv2.RuleArn := None |};
     svcName := svcname;
     deleted := false |}.
Proof.
  intros Hnz. unfold NewRule.
  replace (p =? 0) with false by (symmetry; apply Z.eqb_neq; lia).
  destruct (String.eqb hostname ""), (String.eqb path ""); reflexivity.
Qed.

(** X11. For a rule made by [NewRule] with a priority other than 0, when the
    listener is known and the target group resolves to [arn], the only
    request that [Reconcile] sends to the rule API, whatever the provider
    answers, is a create request with one forward action to [arn], a
    host-header condition when the hostname is not empty followed by a
    path-pattern condition when the path is not empty, the listener's ARN,
    and the very priority that [NewRule] was given. *)
Theorem Reconcile_NewRule_request (ALBsvc : ELBV2API)
        (Prettify : list (option elbv2.RuleCondition) -> string)
        (rOpts : ReconcileOptions) (l : Listener) (cl : elbv2.Listener)
        (p : Z) (hostname path svcname : string) (arn : option string) :
  MinInt64 <= p <= MaxInt64 ->
  p <> 0 ->
  CurrentListener l = Some cl ->
  targetGroupArn (lbTargetGroups (loadbalancer rOpts))
    (start (NewRule p hostname path svcname))
  = (Returned arn, start (NewRule p hostname path svcname)) ->
  apiCalls (calls (snd (Reconcile ALBsvc Prettify rOpts l
                          (start (NewRule p hostname path svcname)))))
  = [ CreateRuleCall
        {| elbv2.inActions :=
             [ Some {| elbv2.TargetGroupArn := arn;
                       elbv2.Type_ := Some "forward" |} ];
           elbv2.inConditions :=
             ((if String.eqb hostname "" then []
               else [ Some {| elbv2.Field := Some "host-header";
                              elbv2.Values := [ Some hostname ] |} ])
              ++
              (if String.eqb path "" then []
               else [ Some {| elbv2.Field := Some "path-pattern";
                              elbv2.Values := [ Some path ] |} ]))%list;
           elbv2.inListenerArn := elbv2.ListenerArn cl;
           elbv2.inPriority := Some p |} ].
Proof.
  intros Hp Hnz Hl Htg.
  rewrite (NewRule_nonzero p hostname path svcname Hnz) in *.
  match type of Htg with
  | targetGroupArn _ ?st = _ =>
      pose proof (create_run ALBsvc rOpts l st _ cl p arn _ []
                    eq_refl Hl (priority_Sprintf_v p Hp Hnz) eq_refl Htg)
        as Hcreate
  end.
  cbv zeta in Hcreate.
  unfold Reconcile. run. cbn [start this DesiredRule CurrentRule]. run.
  cbn [elbv2.IsDefault]. run. rewrite Hcreate.
  unfold requestFor, withTargetGroupArn.
  cbn [elbv2.Type_ elbv2.Conditions elbv2.Actions].
  match goal with
  | |- context [CreateRule ALBsvc ?i] =>
      destruct (CreateRule ALBsvc i) as [[o |] [err |]]
  end; cbn [fst snd]; try reflexivity.
  destruct (elbv2.Rules o) as [| [r0 |] rs]; try reflexivity.
  cbn [this calls withCurrentRule CurrentRule]. run.
  destruct (elbv2.Priority r0); reflexivity.
Qed.

(** ** When [Reconcile] returns *)

Lemma LookupBySvc_from_found (t : TargetGroups) (svc : string) :
  forall p : Z,
    0 <= p ->
    LookupBySvc_from p t svc = -1 \/
    (p <= LookupBySvc_from p t svc /\
     exists tg,
       nth_error t (Z.to_nat (LookupBySvc_from p t svc - p)) = Some tg /\
       In tg t /\ SvcName tg = svc).
Proof.
  induction t as [| v t IH]; intros p Hp; cbn [LookupBySvc_from].
  - left. reflexivity.
  - destruct (String.eqb_spec (SvcName v) svc) as [E | E].
    + right. split; [lia |]. exists v. rewrite Z.sub_diag. cbn. auto.
    + destruct (IH (p + 1) ltac:(lia)) as [Hnone | (Hle & tg & Hnth & Hin & Hsvc)].
      * left. exact Hnone.
      * right. split; [lia |]. exists tg.
        replace (Z.to_nat (LookupBySvc_from (p + 1) t svc - p))
          with (S (Z.to_nat (LookupBySvc_from (p + 1) t svc - (p + 1)))) by lia.
        cbn. auto.
Qed.

(** On a rule without a current snapshot [targetGroupArn] returns as soon as
    every target group has its provider record. *)
Lemma targetGroupArn_returns (tgs : TargetGroups) (s : State) :
  CurrentRule (this s) = None ->
  (forall tg, In tg tgs -> CurrentTargetGroup tg <> None) ->
  exists arn, targetGroupArn tgs s = (Returned arn, s).
Proof.
  intros Hc Htgs. unfold targetGroupArn, index. run. rewrite Hc. run.
  destruct (LookupBySvc_from_found tgs (svcName (this s)) 0 ltac:(lia))
    as [Hnone | (Hle & tg & Hnth & Hin & _)]; fold (LookupBySvc tgs (svcName (this s))) in *.
  - rewrite Hnone. cbn. eauto.
  - replace (LookupBySvc tgs (svcName (this s)) <? 0) with false
      by (symmetry; apply Z.ltb_ge; lia).
    rewrite Z.sub_0_r in Hnth. rewrite Hnth. run.
    specialize (Htgs tg Hin).
    destruct (CurrentTargetGroup tg) as [ctg |]; [| contradiction]. run. eauto.
Qed.

(** X13. [Reconcile] returns, with [nil] or with the provider's error,
    instead of panicking, when every snapshot that is present has its
    default flag and its priority, a desired snapshot has a first action, the
    listener and every target group have their provider records, and the
    provider answers every accepted create request with a rule that has a
    priority. *)
Theorem Reconcile_returns (ALBsvc : ELBV2API)
        (Prettify : list (option elbv2.RuleCondition) -> string)
        (rOpts : ReconcileOptions) (l : Listener) (s : State) :
  (forall r, CurrentRule (this s) = Some r \/ DesiredRule (this s) = Some r ->
             elbv2.IsDefault r <> None /\ elbv2.Priority r <> None) ->
  (forall dr, DesiredRule (this s) = Some dr ->
              exists a0 acts, elbv2.Actions dr = Some a0 :: acts) ->
  CurrentListener l <> None ->
  (forall tg, In tg (lbTargetGroups (loadbalancer rOpts)) ->
              CurrentTargetGroup tg <> None) ->
  (forall i, snd (CreateRule ALBsvc i) = None ->
             exists o r0 rest p0,
               fst (CreateRule ALBsvc i) = Some o /\
               elbv2.Rules o = Some r0 :: rest /\
               elbv2.Priority r0 = Some p0) ->
  exists res : option error,
    fst (Reconcile ALBsvc Prettify rOpts l s) = Returned res.
Proof.
  intros Hsnap Hact Hl Htgs Hprov.
  destruct (DesiredRule (this s)) as [dr |] eqn:Hd.
  - destruct (Hsnap dr (or_intror eq_refl)) as [Hdef Hprio].
    destruct (elbv2.IsDefault dr) as [[|] |] eqn:Edef; [| | contradiction].
    + exists None. unfold Reconcile. run. rewrite Hd. run. rewrite Edef.
      reflexivity.
    + destruct (CurrentRule (this s)) as [cr |] eqn:Hc.
      * destruct (Hsnap cr (or_introl eq_refl)) as [_ Hcp].
        destruct (elbv2.Priority cr) as [prio |] eqn:Ecp; [| contradiction].
        rewrite (Reconcile_paired_run ALBsvc Prettify rOpts l s cr dr prio
                   Hc Hd Edef Ecp).
        cbn [fst]. eauto.
      * destruct (Hact dr eq_refl) as (a0 & acts & Ha).
        destruct (CurrentListener l) as [cl |] eqn:El; [| contradiction].
        destruct (elbv2.Priority dr) as [pstr |] eqn:Ep; [| contradiction].
        assert (Hp : exists prio, priority (elbv2.Priority dr) = Returned prio).
        { rewrite Ep. cbn [priority]. destruct (String.eqb pstr "default");
            [eauto |]. destruct (strconv.ParseInt pstr). eauto. }
        destruct Hp as [prio Hp].
        destruct (targetGroupArn_returns _ s Hc Htgs) as [arn Htg].
        destruct (CreateRule ALBsvc (requestFor dr cl prio arn a0 acts))
          as [o [err |]] eqn:Hans.
        -- rewrite (Reconcile_create_refused_run ALBsvc Prettify rOpts l s dr cl
                      prio arn a0 acts o err Hc Hd Edef El Hp Ha Htg Hans).
           cbn [fst]. eauto.
        -- destruct (Hprov (requestFor dr cl prio arn a0 acts))
             as (o' & r0 & rest & p0 & Ho & Hrules & Hp0);
             [now rewrite Hans |].
           rewrite Hans in Ho. cbn in Ho. subst o.
           rewrite (Reconcile_create_accepted ALBsvc Prettify rOpts l s dr cl
                      prio arn a0 acts o' r0 rest p0
                      Hc Hd Edef El Hp Ha Htg Hans Hrules Hp0).
           cbn [fst]. eauto.
  - destruct (CurrentRule (this s)) as [cr |] eqn:Hc.
    + destruct (Hsnap cr (or_introl eq_refl)) as [Hdef Hcp].
      destruct (elbv2.IsDefault cr) as [[|] |] eqn:Edef; [| | contradiction].
      * exists None. unfold Reconcile. run. rewrite Hd, Hc. run. rewrite Edef.
        reflexivity.
      * destruct (elbv2.Priority cr) as [prio |] eqn:Ecp; [| contradiction].
        pose proof (delete_present ALBsvc rOpts s cr prio Hc Edef Ecp) as Hdel.
        cbv zeta in Hdel.
        unfold Reconcile. run. rewrite Hd, Hc. run. rewrite Edef. run.
        rewrite Hdel.
        destruct (DeleteRule ALBsvc _) as [err |]; [cbn [fst]; eauto |].
        cbn [this calls withDeleted CurrentRule]. rewrite Hc. run. rewrite Ecp.
        cbn [fst]. eauto.
    + exists None. unfold Reconcile. run. rewrite Hd, Hc. reflexivity.
Qed.

(** ** The further theorems at sample values *)

Lemma Reconcile_creates_witness :
  exists s',
    Reconcile acceptingALB renderConditions resolvingOptions exampleListener
      (start exampleRule) = (Returned None, s') /\
    apiCalls (calls s')
    = [ CreateRuleCall
          {| elbv2.inActions :=
               [ Some {| elbv2.TargetGroupArn := Some "arn:tg/svc-a";
                         elbv2.Type_ := Some "forward" |} ];
             elbv2.inConditions := elbv2.inConditions exampleRequest;
             elbv2.inListenerArn := Some "arn:listener/1";
             elbv2.inPriority := Some 3 |} ] /\
    isSome (CurrentRule (this s')) = true.
Proof.
  eexists. split.
  - eapply (Reconcile_creates acceptingALB renderConditions resolvingOptions
              exampleListener (start exampleRule)); reflexivity.
  - split; reflexivity.
Defined.

Lemma Reconcile_create_refused_witness :
  exists s',
    Reconcile refusingALB renderConditions resolvingOptions exampleListener
      (start exampleRule)
    = (Returned (Some {| Error := "AccessDenied" |}), s') /\
    CurrentRule (this s') = None /\
    calls s'
    = [ CreateRuleCall
          {| elbv2.inActions :=
               [ Some {| elbv2.TargetGroupArn := Some "arn:tg/svc-a";
                         elbv2.Type_ := Some "forward" |} ];
             elbv2.inConditions := elbv2.inConditions exampleRequest;
             elbv2.inListenerArn := Some "arn:listener/1";
             elbv2.inPriority := Some 3 |};
        EventfCall "Warning" "ERROR" "Error creating 3 rule: AccessDenied" ].
Proof.
  eexists. split.
  - eapply (Reconcile_create_refused refusingALB renderConditions
              resolvingOptions exampleListener (start exampleRule));
      reflexivity.
  - split; reflexivity.
Defined.

Lemma Reconcile_paired_witness :
  Reconcile refusingALB renderConditions exampleOptions exampleListener
    (start {| CurrentRule := Some swappedRule;
              DesiredRule := DesiredRule exampleRule;
              svcName := "svc-a"; deleted := false |})
  = (Returned None,
     {| this := {| CurrentRule := Some swappedRule;
                   DesiredRule := DesiredRule exampleRule;
                   svcName := "svc-a"; deleted := false |};
        calls := [ EventfCall "Normal" "MODIFY" "4 rule modified" ] |}).
Proof.
  apply (Reconcile_paired refusingALB renderConditions exampleOptions
           exampleListener
           (start {| CurrentRule := Some swappedRule;
                     DesiredRule := DesiredRule exampleRule;
                     svcName := "svc-a"; deleted := false |})
           swappedRule
           {| elbv2.Actions :=
                [ Some {| elbv2.TargetGroupArn := None;
                          elbv2.Type_ := Some "forward" |} ];
              elbv2.Conditions := elbv2.Conditions observedRule;
              elbv2.IsDefault := Some false;
              elbv2.Priority := Some "3";
              elbv2.RuleArn := None |}
           "4" eq_refl eq_refl eq_refl eq_refl).
Defined.

Lemma Reconcile_default_twice_witness :
  Reconcile refusingALB renderConditions exampleOptions exampleListener
    (snd (Reconcile refusingALB renderConditions exampleOptions exampleListener
            (start (NewRule 0 "example.com" "" "svc-a"))))
  = (Returned None,
     snd (Reconcile refusingALB renderConditions exampleOptions exampleListener
            (start (NewRule 0 "example.com" "" "svc-a")))).
Proof.
  eapply (Reconcile_default_twice refusingALB renderConditions exampleOptions
            exampleListener (start (NewRule 0 "example.com" "" "svc-a")));
    reflexivity.
Defined.


Lemma Reconcile_converged_after_create_witness :
  Reconcile acceptingALB renderConditions resolvingOptions exampleListener
    (snd (Reconcile acceptingALB renderConditions resolvingOptions
            exampleListener (start exampleRule)))
  = (Returned None,
     snd (Reconcile acceptingALB renderConditions resolvingOptions
            exampleListener (start exampleRule))).
Proof.
  eapply (Reconcile_converged_after_create acceptingALB renderConditions
            resolvingOptions exampleListener (start exampleRule));
    reflexivity.
Defined.

Lemma Reconcile_NewRule_request_witness :
  apiCalls
    (calls (snd (Reconcile refusingALB renderConditions resolvingOptions
                   exampleListener
                   (start (NewRule 42 "" "/static/*" "svc-b")))))
  = [ CreateRuleCall
        {| elbv2.inActions :=
             [ Some {| elbv2.TargetGroupArn := Some "arn:tg/svc-b";
                       elbv2.Type_ := Some "forward" |} ];
           elbv2.inConditions :=
             [ Some {| elbv2.Field := Some "path-pattern";
                       elbv2.Values := [ Some "/static/*" ] |} ];
           elbv2.inListenerArn := Some "arn:listener/1";
           elbv2.inPriority := Some 42 |} ].
Proof.
  apply (Reconcile_NewRule_request refusingALB renderConditions resolvingOptions
           exampleListener {| elbv2.ListenerArn := Some "arn:listener/1" |}
           42 "" "/static/*" "svc-b" (Some "arn:tg/svc-b")).
  - unfold MinInt64, MaxInt64. lia.
  - lia.
  - reflexivity.
  - reflexivity.
Defined.

Lemma Reconcile_deletes_without_priority_witness :
  fst (Reconcile acceptingALB renderConditions exampleOptions exampleListener
         (start (NewRuleFromAWSRule
                   (Some {| elbv2.Actions := [];
                            elbv2.Conditions := [];
                            elbv2.IsDefault := Some false;
                            elbv2.Priority := None;
                            elbv2.RuleArn := Some "arn:rule/9" |}))))
  = Panicked.
Proof.
  apply (Reconcile_deletes_without_priority acceptingALB renderConditions
           exampleOptions exampleListener
           (start (NewRuleFromAWSRule
                     (Some {| elbv2.Actions := [];
                              elbv2.Conditions := [];
                              elbv2.IsDefault := Some false;
                              elbv2.Priority := None;
                              elbv2.RuleArn := Some "arn:rule/9" |})))
           _ eq_refl eq_refl eq_refl eq_refl).
Defined.

Lemma Reconcile_returns_witness :
  exists res : option error,
    fst (Reconcile refusingALB renderConditions resolvingOptions exampleListener
           (start exampleRule)) = Returned res.
Proof.
  apply (Reconcile_returns refusingALB renderConditions resolvingOptions
           exampleListener (start exampleRule)).
  - intros r [H | H]; [discriminate |]. injection H as <-. split; discriminate.
  - intros dr H. injection H as <-. eexists _, _. reflexivity.
  - discriminate.
  - intros tg [<- | [<- | []]]; discriminate.
  - intros i H. discriminate.
Defined.
